(** * LOOT: generic game-install detection and the load-order mapper

    A shallow embedding of
      - [src/gui/state/game/detection/generic.cpp] (install detection), and
      - the function template [MapFromLoadOrderData] of
        [src/gui/state/game/game.h],
    together with the properties that their specification states.

    Effects are modelled the way the C++ has them.  Functions of
    [generic.cpp] run in a small monad that records the sequence of observable
    probes (filesystem existence checks, validity checks, registry reads) and
    can throw.  [MapFromLoadOrderData] is three phases: a sequential loop
    carrying two [short] counters, a parallel [std::transform] modelled by an
    arbitrary schedule of slot writes, and a sequential scan that rethrows the
    first captured failure. *)

From stdpp Require Import base numbers list strings.
From Stdlib Require Import Ascii Permutation.


(** ** Enumerations *)

(** A C++ scoped enumeration can hold any value of its underlying type, which
    is why every [switch] of [generic.cpp] has a [default:] branch.  The last
    constructor of [GameId.t] and [GameType.t] stands for such a value. *)

Module GameId.
Inductive t : Type :=
| tes3 | tes4 | nehrim | tes5 | enderal | tes5se | enderalse | tes5vr
| fo3 | fonv | fo4 | fo4vr
| unrecognised (raw : N).

Definition recognised (g : t) : bool :=
  match g with
  | unrecognised _ => false
  | _ => true
  end.
End GameId.

Module GameType.
Inductive t : Type :=
| tes3 | tes4 | tes5 | tes5se | tes5vr | fo3 | fonv | fo4 | fo4vr
| unrecognised (raw : N).

Definition recognised (g : t) : bool :=
  match g with
  | unrecognised _ => false
  | _ => true
  end.

Definition all : list t :=
  [tes3; tes4; tes5; tes5se; tes5vr; fo3; fonv; fo4; fo4vr].
End GameType.

Module InstallSource.
Inductive t : Type := steam | gog | epic | microsoft | unknown.
End InstallSource.

(** ** Paths *)

(** A [std::filesystem::path] is modelled by its generic-format string. *)
Definition path : Type := string.

Fixpoint ends_with_separator (p : string) : bool :=
  match p with
  | EmptyString => false
  | String c EmptyString => bool_decide (c = "/"%char)
  | String _ rest => ends_with_separator rest
  end.

(** [operator/] with a relative right-hand side: a separator is inserted
    unless the left-hand side is empty or already ends with one. *)
Definition path_append (p : path) (name : string) : path :=
  match p with
  | EmptyString => name
  | _ => if ends_with_separator p then p +:+ name else p +:+ "/" +:+ name
  end.

Infix "</>" := path_append (at level 45, left associativity).

(** ** Data *)

Record RegistryValue : Type := mkRegistryValue {
  rootKey : string;
  subKey : string;
  valueName : string
}.

(** Modelled from the spec: the declaration of [GameInstall]
    ([game_install.h]) is not part of the sources at hand.  The specification
    gives it an identity, a source, an install path and an optional local-data
    path; a three-element initialiser leaves the local-data path absent. *)
Record GameInstall : Type := mkGameInstall {
  gameId : GameId.t;
  source : InstallSource.t;
  installPath : path;
  localPath : option path
}.

(** The four accessors of [GameSettings] that [DetectGameInstall] calls. *)
Module GameSettings.
Record t : Type := mk {
  Type_ : GameType.t;
  Master : string;
  GamePath : path;
  GameLocalPath : path
}.
End GameSettings.

(** ** Exceptions, probes and the effect monad *)

Inductive exn : Type :=
| logic_error (what : string)
| runtime_error (what : string)
| filesystem_error (p : path).

Inductive event : Type :=
| FsExists (p : path)
| ValidityCheck (type : GameType.t) (master : string) (p : path)
| RegistryRead (value : RegistryValue).

Inductive outcome (A : Type) : Type :=
| Returned (a : A)
| Thrown (e : exn).
Arguments Returned {A} a.
Arguments Thrown {A} e.

(** A computation yields the probes it made, in order, and either returns or
    throws.  Probes made before a throw are kept. *)
Definition Eff (A : Type) : Type := (outcome A * list event)%type.

Definition result {A} (m : Eff A) : outcome A := fst m.
Definition probes {A} (m : Eff A) : list event := snd m.

Definition ret {A} (a : A) : Eff A := (Returned a, []).

Definition throw {A} (e : exn) : Eff A := (Thrown e, []).

Definition emit (ev : event) : Eff unit := (Returned (), [ev]).

Definition bind {A B} (m : Eff A) (k : A -> Eff B) : Eff B :=
  match result m with
  | Returned a => (result (k a), probes m ++ probes (k a))
  | Thrown e => (Thrown e, probes m)
  end.

Notation "'let!' x := c 'in' k" := (bind c (fun x => k))
  (at level 10, x name, c at level 100, k at level 200).

(** What the operating system answers when asked for the status of a path:
    the file is there, it is not, or the status cannot be determined
    (permission denied, a loop of symbolic links, a name too long, ...). *)
Inductive file_status : Type :=
| Present
| Absent
| StatFailure.

(** ** Collaborators

    The state of the filesystem at the time of the call and the helpers that
    [generic.cpp] takes from [common.h], [gog.h] and [registry.h], none of
    which it defines. *)
Class Environment : Type := {
  fs : path -> file_status;
  GetGameType : GameId.t -> GameType.t;
  GetMasterFilename : GameId.t -> string;
  IsValidGamePathImpl : GameType.t -> string -> path -> bool;
  GetGogGameIds : GameId.t -> list string;
  RegistryInterface : Type;
  ReadPathFromRegistryImpl : RegistryInterface -> RegistryValue -> option path
}.

Section Detection.
Context `{Environment}.

(** [std::filesystem::exists], in the overload that [generic.cpp] calls: it
    throws [std::filesystem_error] when the status of the path cannot be
    determined, and nothing in the file catches it. *)
Definition exists_ (p : path) : Eff bool :=
  let! _ := emit (FsExists p) in
  match fs p with
  | Present => ret true
  | Absent => ret false
  | StatFailure => throw (filesystem_error p)
  end.

Definition IsValidGamePath (type : GameType.t) (master : string) (p : path)
  : Eff bool :=
  let! _ := emit (ValidityCheck type master p) in
  ret (IsValidGamePathImpl type master p).

Definition ReadPathFromRegistry (registry : RegistryInterface)
    (value : RegistryValue) : Eff (option path) :=
  let! _ := emit (RegistryRead value) in
  ret (ReadPathFromRegistryImpl registry value).

(** *** [GetRegistryValue] *)
Definition GetRegistryValue (gameId : GameId.t) : Eff RegistryValue :=
  match gameId with
  | GameId.tes3 =>
      ret (mkRegistryValue "HKEY_LOCAL_MACHINE"
             "Software\Bethesda Softworks\Morrowind" "Installed Path")
  | GameId.tes4 =>
      ret (mkRegistryValue "HKEY_LOCAL_MACHINE"
             "Software\Bethesda Softworks\Oblivion" "Installed Path")
  | GameId.nehrim =>
      ret (mkRegistryValue "HKEY_LOCAL_MACHINE"
             ("Software\Microsoft\Windows\CurrentVersion\Uninstall\Nehrim"
              +:+ " - At Fate's Edge_is1")
             "InstallLocation")
  | GameId.tes5 =>
      ret (mkRegistryValue "HKEY_LOCAL_MACHINE"
             "Software\Bethesda Softworks\Skyrim" "Installed Path")
  | GameId.enderal =>
      ret (mkRegistryValue "HKEY_CURRENT_USER" "SOFTWARE\SureAI\Enderal"
             "Install_Path")
  | GameId.tes5se =>
      ret (mkRegistryValue "HKEY_LOCAL_MACHINE"
             "Software\Bethesda Softworks\Skyrim Special Edition"
             ("Installed " +:+ "Path"))
  | GameId.enderalse =>
      ret (mkRegistryValue "HKEY_CURRENT_USER" "SOFTWARE\SureAI\EnderalSE"
             "Install_Path")
  | GameId.tes5vr =>
      ret (mkRegistryValue "HKEY_LOCAL_MACHINE"
             "Software\Bethesda Softworks\Skyrim VR" "Installed Path")
  | GameId.fo3 =>
      ret (mkRegistryValue "HKEY_LOCAL_MACHINE"
             "Software\Bethesda Softworks\Fallout3" "Installed Path")
  | GameId.fonv =>
      ret (mkRegistryValue "HKEY_LOCAL_MACHINE"
             "Software\Bethesda Softworks\FalloutNV" "Installed Path")
  | GameId.fo4 =>
      ret (mkRegistryValue "HKEY_LOCAL_MACHINE"
             "Software\Bethesda Softworks\Fallout4" "Installed Path")
  | GameId.fo4vr =>
      ret (mkRegistryValue "HKEY_LOCAL_MACHINE"
             "Software\Bethesda Softworks\Fallout 4 VR" "Installed Path")
  | GameId.unrecognised _ => throw (logic_error "Unrecognised game ID")
  end.

(** *** The four source classifiers *)
Definition IsSteamInstall (gameId : GameId.t) (installPath : path)
  : Eff bool :=
  match gameId with
  | GameId.tes3 => exists_ (installPath </> "steam_autocloud.vdf")
  | GameId.nehrim => exists_ (installPath </> "steam_api.dll")
  | GameId.tes5 | GameId.tes5vr | GameId.fo4vr =>
      (* Only released on Steam. *)
      ret true
  | GameId.tes4 | GameId.tes5se | GameId.enderal | GameId.enderalse
  | GameId.fo3 | GameId.fonv | GameId.fo4 =>
      exists_ (installPath </> "installscript.vdf")
  | GameId.unrecognised _ => throw (logic_error "Unrecognised game ID")
  end.

Definition gogIconPath (installPath : path) (gogGameId : string) : path :=
  installPath </> ("goggame-" +:+ gogGameId +:+ ".ico").

(** The [for] loop of [IsGogInstall], which returns at the first icon
    found. *)
Fixpoint IsGogInstall_loop (gogGameIds : list string) (installPath : path)
  : Eff bool :=
  match gogGameIds with
  | [] => ret false
  | gogGameId :: rest =>
      let! found := exists_ (gogIconPath installPath gogGameId) in
      if found then ret true else IsGogInstall_loop rest installPath
  end.

Definition IsGogInstall (gameId : GameId.t) (installPath : path)
  : Eff bool :=
  IsGogInstall_loop (GetGogGameIds gameId) installPath.

Definition IsEpicInstall (installPath : path) : Eff bool :=
  exists_ (installPath </> ".egstore").

Definition IsMicrosoftInstall (installPath : path) : Eff bool :=
  exists_ (installPath </> "appxmanifest.xml").

(** *** [FindGameInstallInRegistry] *)
Definition FindGameInstallInRegistry (registry : RegistryInterface)
    (gameId : GameId.t) : Eff (option GameInstall) :=
  let! value := GetRegistryValue gameId in
  let! found := ReadPathFromRegistry registry value in
  let! valid := match found with
           | Some p =>
               IsValidGamePath (GetGameType gameId)
                 (GetMasterFilename gameId) p
           | None => ret false
           end in
  match found, valid with
  | Some p, true =>
      let! isSteam := IsSteamInstall gameId p in
      if isSteam then
        ret (Some (mkGameInstall gameId InstallSource.steam p None))
      else
        let! isGog := IsGogInstall gameId p in
        if isGog then
          ret (Some (mkGameInstall gameId InstallSource.gog p None))
        else
          ret (Some (mkGameInstall gameId InstallSource.unknown p None))
  | _, _ => ret None
  end.

(** *** [FindSiblingGameInstall] *)
Definition FindSiblingGameInstall (gameId : GameId.t)
  : Eff (option GameInstall) :=
  let path : path := ".." in
  let! valid := IsValidGamePath (GetGameType gameId)
             (GetMasterFilename gameId) path in
  if negb valid then ret None
  else
    let! isSteam := IsSteamInstall gameId path in
    if isSteam then
      ret (Some (mkGameInstall gameId InstallSource.steam path None))
    else
      let! isGog := IsGogInstall gameId path in
      if isGog then
        ret (Some (mkGameInstall gameId InstallSource.gog path None))
      else
        let! isEpic := IsEpicInstall path in
        if isEpic then
          ret (Some (mkGameInstall gameId InstallSource.epic path None))
        else
          let! isMicrosoft := IsMicrosoftInstall path in
          if isMicrosoft then
            ret (Some (mkGameInstall gameId InstallSource.microsoft path
                         None))
          else
            ret (Some (mkGameInstall gameId InstallSource.unknown path
                         None)).

(** *** [DetectGameId] *)
Definition DetectGameId (gameType : GameType.t) (installPath : path)
  : Eff GameId.t :=
  match gameType with
  | GameType.tes3 => ret GameId.tes3
  | GameType.tes4 =>
      let! found := exists_ (installPath </> "NehrimLauncher.exe") in
      ret (if found then GameId.nehrim else GameId.tes4)
  | GameType.tes5 =>
      let! found := exists_ (installPath </> "Enderal Launcher.exe") in
      ret (if found then GameId.enderal else GameId.tes5)
  | GameType.tes5se =>
      let! found := exists_ (installPath </> "Enderal Launcher.exe") in
      ret (if found then GameId.enderalse else GameId.tes5se)
  | GameType.tes5vr => ret GameId.tes5vr
  | GameType.fo3 => ret GameId.fo3
  | GameType.fonv => ret GameId.fonv
  | GameType.fo4 => ret GameId.fo4
  | GameType.fo4vr => ret GameId.fo4vr
  | GameType.unrecognised _ => throw (logic_error "Unrecognised game ID")
  end.

(** *** [loot::generic::FindGameInstalls] *)
Definition FindGameInstalls (registry : RegistryInterface)
    (gameId : GameId.t) : Eff (list GameInstall) :=
  let installs : list GameInstall := [] in
  let! sibling := FindSiblingGameInstall gameId in
  let installs := match sibling with
                  | Some i => installs ++ [i]
                  | None => installs
                  end in
  let! registryInstall := FindGameInstallInRegistry registry gameId in
  let installs := match registryInstall with
                  | Some i => installs ++ [i]
                  | None => installs
                  end in
  ret installs.

(** *** [loot::generic::DetectGameInstall] *)
Definition DetectGameInstall (settings : GameSettings.t)
  : Eff (option GameInstall) :=
  let! valid := IsValidGamePath (GameSettings.Type_ settings)
             (GameSettings.Master settings)
             (GameSettings.GamePath settings) in
  if negb valid then ret None
  else
    let installPath := GameSettings.GamePath settings in
    let localPath := Some (GameSettings.GameLocalPath settings) in
    let! gameId := DetectGameId (GameSettings.Type_ settings) installPath in
    let! isSteam := IsSteamInstall gameId installPath in
    if isSteam then
      ret (Some (mkGameInstall gameId InstallSource.steam installPath
                   localPath))
    else
      let! isGog := IsGogInstall gameId installPath in
      if isGog then
        ret (Some (mkGameInstall gameId InstallSource.gog installPath
                     localPath))
      else
        let! isEpic := IsEpicInstall installPath in
        if isEpic then
          ret (Some (mkGameInstall gameId InstallSource.epic installPath
                       localPath))
        else
          let! isMicrosoft := IsMicrosoftInstall installPath in
          if isMicrosoft then
            ret (Some (mkGameInstall gameId InstallSource.microsoft
                         installPath localPath))
          else
            ret (Some (mkGameInstall gameId InstallSource.unknown
                         installPath localPath)).

(** *** The classification read as a priority list

    What the four classifiers and the order in which they are consulted
    amount to, as pure functions of the filesystem state.  A check matches,
    does not match, or fails; the theorems below relate the code to these
    functions. *)

(** The outcome of one existence check. *)
Definition exists_outcome (p : path) : outcome bool :=
  match fs p with
  | Present => Returned true
  | Absent => Returned false
  | StatFailure => Thrown (filesystem_error p)
  end.

(** The checks are consulted in order: the first that matches gives the
    source, one that fails before any matched ends the classification with
    its error, and [unknown] is left when none matched. *)
Fixpoint first_match (checks : list (InstallSource.t * outcome bool))
  : outcome InstallSource.t :=
  match checks with
  | [] => Returned InstallSource.unknown
  | (src, Returned true) :: _ => Returned src
  | (_, Returned false) :: rest => first_match rest
  | (_, Thrown e) :: _ => Thrown e
  end.

(** The per-identity rule of the Steam classifier: released on Steam only, or
    recognised by a marker file (the cloud-save marker, the bundled Steam
    runtime library, the generic install script). *)
Inductive steam_rule : Type :=
| SteamOnly
| SteamMarker (name : string)
| NoSteamRule.

Definition steam_rule_of (g : GameId.t) : steam_rule :=
  match g with
  | GameId.tes3 => SteamMarker "steam_autocloud.vdf"
  | GameId.nehrim => SteamMarker "steam_api.dll"
  | GameId.tes5 | GameId.tes5vr | GameId.fo4vr => SteamOnly
  | GameId.unrecognised _ => NoSteamRule
  | _ => SteamMarker "installscript.vdf"
  end.

Definition steam_check (g : GameId.t) (p : path) : outcome bool :=
  match steam_rule_of g with
  | SteamOnly => Returned true
  | SteamMarker name => exists_outcome (p </> name)
  | NoSteamRule => Thrown (logic_error "Unrecognised game ID")
  end.

(** The icons are looked for in the order of the catalogue ids, up to the
    first one that is found or whose check fails. *)
Fixpoint gog_check_of (ids : list string) (p : path) : outcome bool :=
  match ids with
  | [] => Returned false
  | id :: rest =>
      match exists_outcome (p </> ("goggame-" +:+ id +:+ ".ico")) with
      | Returned true => Returned true
      | Returned false => gog_check_of rest p
      | Thrown e => Thrown e
      end
  end.

Definition gog_check (g : GameId.t) (p : path) : outcome bool :=
  gog_check_of (GetGogGameIds g) p.

Definition epic_check (p : path) : outcome bool :=
  exists_outcome (p </> ".egstore").

Definition microsoft_check (p : path) : outcome bool :=
  exists_outcome (p </> "appxmanifest.xml").

Definition four_way_source (g : GameId.t) (p : path)
  : outcome InstallSource.t :=
  first_match [(InstallSource.steam, steam_check g p);
               (InstallSource.gog, gog_check g p);
               (InstallSource.epic, epic_check p);
               (InstallSource.microsoft, microsoft_check p)].

Definition two_way_source (g : GameId.t) (p : path)
  : outcome InstallSource.t :=
  first_match [(InstallSource.steam, steam_check g p);
               (InstallSource.gog, gog_check g p)].

(** The install that a classification leads to. *)
Definition install_of (g : GameId.t) (p : path) (lp : option path)
    (src : outcome InstallSource.t) : outcome (option GameInstall) :=
  match src with
  | Returned s => Returned (Some (mkGameInstall g s p lp))
  | Thrown e => Thrown e
  end.

(** The probes that the Steam and GOG classifiers make. *)
Definition steam_probes (g : GameId.t) (p : path) : list event :=
  match steam_rule_of g with
  | SteamMarker name => [FsExists (p </> name)]
  | _ => []
  end.

Fixpoint gog_probes_of (ids : list string) (p : path) : list event :=
  match ids with
  | [] => []
  | id :: rest =>
      FsExists (gogIconPath p id)
      :: match fs (gogIconPath p id) with
         | Absent => gog_probes_of rest p
         | _ => []
         end
  end.

Definition gog_probes (g : GameId.t) (p : path) : list event :=
  gog_probes_of (GetGogGameIds g) p.

(** The existence checks of the whole cascade, in the order they are made:
    a later classifier is consulted only when the earlier ones returned
    without a match. *)
Definition four_way_probes (g : GameId.t) (p : path) : list event :=
  steam_probes g p
  ++ match steam_check g p with
     | Returned false =>
         gog_probes g p
         ++ match gog_check g p with
            | Returned false =>
                FsExists (p </> ".egstore")
                :: match epic_check p with
                   | Returned false => [FsExists (p </> "appxmanifest.xml")]
                   | _ => []
                   end
            | _ => []
            end
     | _ => []
     end.

Definition two_way_probes (g : GameId.t) (p : path) : list event :=
  steam_probes g p
  ++ match steam_check g p with
     | Returned false => gog_probes g p
     | _ => []
     end.

(** The total-conversion variant of a family: the launcher that marks it and
    the identity it stands for. *)
Definition variant_of (t : GameType.t) : option (string * GameId.t) :=
  match t with
  | GameType.tes4 => Some ("NehrimLauncher.exe", GameId.nehrim)
  | GameType.tes5 => Some ("Enderal Launcher.exe", GameId.enderal)
  | GameType.tes5se => Some ("Enderal Launcher.exe", GameId.enderalse)
  | _ => None
  end.

Definition base_identity (t : GameType.t) : GameId.t :=
  match t with
  | GameType.tes3 => GameId.tes3
  | GameType.tes4 => GameId.tes4
  | GameType.tes5 => GameId.tes5
  | GameType.tes5se => GameId.tes5se
  | GameType.tes5vr => GameId.tes5vr
  | GameType.fo3 => GameId.fo3
  | GameType.fonv => GameId.fonv
  | GameType.fo4 => GameId.fo4
  | GameType.fo4vr => GameId.fo4vr
  | GameType.unrecognised raw => GameId.unrecognised raw
  end.

(** The identity of an install: the variant when the check of its launcher
    finds it, the base identity when the check does not find it, the error
    of the check when it fails; a logic error outside the recognised
    families. *)
Definition resolve_identity (t : GameType.t) (p : path) : outcome GameId.t :=
  if GameType.recognised t then
    match variant_of t with
    | Some (launcher, variant) =>
        match exists_outcome (p </> launcher) with
        | Returned true => Returned variant
        | Returned false => Returned (base_identity t)
        | Thrown e => Thrown e
        end
    | None => Returned (base_identity t)
    end
  else Thrown (logic_error "Unrecognised game ID").

(** The existence check that identity resolution makes, if any. *)
Definition resolve_probes (t : GameType.t) (p : path) : list event :=
  match variant_of t with
  | Some (launcher, _) => [FsExists (p </> launcher)]
  | None => []
  end.

Definition throws_logic_error {A} (o : outcome A) : Prop :=
  match o with
  | Thrown (logic_error _) => True
  | _ => False
  end.

Definition returns {A} (o : outcome A) : Prop :=
  match o with
  | Returned _ => True
  | Thrown _ => False
  end.

(** No existence check fails in this state of the filesystem. *)
Definition every_status_known : Prop :=
  forall p : path, fs p <> StatFailure.

(** The sibling scan as the specification words it: a rejected candidate is
    discarded; an accepted one yields an install whose identity is resolved
    from the family and the candidate path, with no local-data path. *)
Definition sibling_scan_as_worded (g : GameId.t) : Prop :=
  let accepted :=
    IsValidGamePathImpl (GetGameType g) (GetMasterFilename g) ".." in
  (accepted = false -> result (FindSiblingGameInstall g) = Returned None)
  /\ (accepted = true ->
      exists resolved src,
        result (DetectGameId (GetGameType g) "..") = Returned resolved
        /\ result (FindSiblingGameInstall g)
           = Returned (Some (mkGameInstall resolved src ".." None))).


(** The three switches as the specification words them: a logic error
    exactly outside the recognised set, and no exception inside it. *)
Definition raising_as_worded (t : GameType.t) (g : GameId.t) (p : path)
  : Prop :=
  ((throws_logic_error (result (DetectGameId t p))
    <-> GameType.recognised t = false)
   /\ (returns (result (DetectGameId t p))
       <-> GameType.recognised t = true))
  /\ ((throws_logic_error (result (IsSteamInstall g p))
       <-> GameId.recognised g = false)
      /\ (returns (result (IsSteamInstall g p))
          <-> GameId.recognised g = true))
  /\ ((throws_logic_error (result (GetRegistryValue g))
       <-> GameId.recognised g = false)
      /\ (returns (result (GetRegistryValue g))
          <-> GameId.recognised g = true)).

End Detection.

(** ** [MapFromLoadOrderData] *)

(** The C++ type [short]: sixteen bits, two's complement. *)
Module Short.
Definition min_value : Z := -32768.
Definition max_value : Z := 32767.

Definition wrap (z : Z) : Z := (z + 32768) mod 65536 - 32768.

(** [++n] on a [short]: the sum is formed in [int] and converted back. *)
Definition incr (n : Z) : Z := wrap (n + 1).
End Short.

(** What the mapper needs of [gui::Game] and [PluginInterface]. *)
Class GameState : Type := {
  PluginInterface : Type;
  GetPlugin : string -> option PluginInterface;
  IsLightPlugin : PluginInterface -> bool;
  IsPluginActive : string -> bool
}.

(** A call of the mapper returns a value or throws a [std::exception] whose
    [what()] is the message; the transformer catches nothing else. *)
Inductive mapper_outcome (T : Type) : Type :=
| Mapped (mappedData : T)
| Raised (what : string).
Arguments Mapped {T} mappedData.
Arguments Raised {T} what.

Section LoadOrderMapper.
Context `{GameState}.
Context {T : Type}.

(** A value-initialised [T], held by every slot of the presized vector
    before it is written. *)
Variable T_default : T.

(** [getLogger()] returns a logger or nothing. *)
Variable logger_configured : bool.

Definition LoadOrderTuple : Type :=
  (PluginInterface * option Z * bool)%type.

Definition Mapper : Type :=
  PluginInterface -> option Z -> bool -> mapper_outcome T.

(** [std::variant<T, std::string>] *)
Definition MappedDataOrError : Type := (T + string)%type.

(** *** Phase 1: the sequential loop *)

Record phase1_state : Type := mkPhase1 {
  data : list LoadOrderTuple;
  numberOfActiveLightPlugins : Z;
  numberOfActiveNormalPlugins : Z
}.

(** One iteration of the first [for] loop. *)
Definition phase1_step (st : phase1_state) (pluginName : string)
  : phase1_state :=
  match GetPlugin pluginName with
  | None => st
  | Some plugin =>
      let isLight := IsLightPlugin plugin in
      let isActive := IsPluginActive pluginName in
      let numberOfActivePlugins :=
        if isLight then numberOfActiveLightPlugins st
        else numberOfActiveNormalPlugins st in
      let activeLoadOrderIndex :=
        if isActive then Some numberOfActivePlugins else None in
      let data' := data st ++ [(plugin, activeLoadOrderIndex, isActive)] in
      if isActive then
        if isLight then
          mkPhase1 data' (Short.incr (numberOfActiveLightPlugins st))
            (numberOfActiveNormalPlugins st)
        else
          mkPhase1 data' (numberOfActiveLightPlugins st)
            (Short.incr (numberOfActiveNormalPlugins st))
      else
        mkPhase1 data' (numberOfActiveLightPlugins st)
          (numberOfActiveNormalPlugins st)
  end.

Definition phase1 (loadOrder : list string) : phase1_state :=
  fold_left phase1_step loadOrder (mkPhase1 [] 0 0).

(** *** Phase 2: the transformer and the parallel transform *)

Definition log_line (what : string) : string :=
  "Failed to map load order data to output type, exception is: " +:+ what.

(** The lambda [transformer]: the slot value and the lines it logs. *)
Definition transformer (mapper : Mapper) (loadOrderTuple : LoadOrderTuple)
  : MappedDataOrError * list string :=
  let '(plugin, activeLoadOrderIndex, isActive) := loadOrderTuple in
  match mapper plugin activeLoadOrderIndex isActive with
  | Mapped mappedData => (inl mappedData, [])
  | Raised what =>
      (inr what, if logger_configured then [log_line what] else [])
  end.

(** What a transformed element leaves in its slot, and what it logs. *)
Definition slot_of (mapper : Mapper) (loadOrderTuple : LoadOrderTuple)
  : MappedDataOrError :=
  fst (transformer mapper loadOrderTuple).

Definition lines_of (mapper : Mapper) (loadOrderTuple : LoadOrderTuple)
  : list string :=
  snd (transformer mapper loadOrderTuple).

Record phase2_state : Type := mkPhase2 {
  maybeMappedData : list MappedDataOrError;
  logged : list string
}.

(** The element at [i] is transformed and the result stored at [i] of the
    output. *)
Definition phase2_write (mapper : Mapper) (input : list LoadOrderTuple)
    (st : phase2_state) (i : nat) : phase2_state :=
  match input !! i with
  | Some loadOrderTuple =>
      let '(slot, lines) := transformer mapper loadOrderTuple in
      mkPhase2 (<[i:=slot]> (maybeMappedData st)) (logged st ++ lines)
  | None => st
  end.

(** [std::transform] under [std::execution::par_unseq]: the elements are
    processed in an order that the caller does not control; [schedule] is
    that order. *)
Definition phase2 (schedule : list nat) (mapper : Mapper)
    (input : list LoadOrderTuple) : phase2_state :=
  fold_left (phase2_write mapper input) schedule
    (mkPhase2 (replicate (length input) (inl T_default)) []).

(** The lines logged when the element at [i] is processed. *)
Definition lines_at (mapper : Mapper) (input : list LoadOrderTuple) (i : nat)
  : list string :=
  match input !! i with
  | Some loadOrderTuple => lines_of mapper loadOrderTuple
  | None => []
  end.

(** A schedule processes every element once. *)
Definition valid_schedule (schedule : list nat) (n : nat) : Prop :=
  Permutation schedule (seq 0 n).

(** *** Phase 3: the sequential scan *)

Fixpoint phase3 (slots : list MappedDataOrError) (mappedData : list T)
  : outcome (list T) :=
  match slots with
  | [] => Returned mappedData
  | inl value :: rest => phase3 rest (mappedData ++ [value])
  | inr what :: _ => Thrown (runtime_error what)
  end.

(** The function template itself: what it returns or throws, and what it
    logged. *)
Definition MapFromLoadOrderData (schedule : list nat)
    (loadOrder : list string) (mapper : Mapper)
  : outcome (list T) * list string :=
  let input := data (phase1 loadOrder) in
  let st := phase2 schedule mapper input in
  (phase3 (maybeMappedData st) [], logged st).

(** *** The specification's reading *)

(** How many names of [names] are those of found, active plugins of the given
    kind. *)
Definition is_active_of_kind (light : bool) (pluginName : string) : bool :=
  match GetPlugin pluginName with
  | Some plugin =>
      bool_decide (IsLightPlugin plugin = light) && IsPluginActive pluginName
  | None => false
  end.

Definition count_active (light : bool) (names : list string) : nat :=
  length (filter (fun n => is_active_of_kind light n = true) names).

(** The tuple that the name at position [i] of the load order contributes:
    none when the plugin is not found; [index] turns the running count into
    the active index. *)
Definition tuple_at (index : nat -> Z) (loadOrder : list string) (i : nat)
  : option LoadOrderTuple :=
  match loadOrder !! i with
  | None => None
  | Some pluginName =>
      match GetPlugin pluginName with
      | None => None
      | Some plugin =>
          let isActive := IsPluginActive pluginName in
          Some (plugin,
                if isActive then
                  Some (index (count_active (IsLightPlugin plugin)
                                 (take i loadOrder)))
                else None,
                isActive)
      end
  end.

Definition tuples_of (index : nat -> Z) (loadOrder : list string)
  : list LoadOrderTuple :=
  omap (tuple_at index loadOrder) (seq 0 (length loadOrder)).

(** The index as the specification words it, and as a [short] holds it. *)
Definition index_exact (count : nat) : Z := Z.of_nat count.
Definition index_short (count : nat) : Z := Short.wrap (Z.of_nat count).

(** Phase 1 as the specification words it: the active index is the running
    count itself. *)
Definition phase1_as_worded (loadOrder : list string) : Prop :=
  data (phase1 loadOrder) = tuples_of index_exact loadOrder.

(** The mapper applied to the tuples one after the other, stopping at the
    first failure. *)
Fixpoint map_in_order (mapper : Mapper) (input : list LoadOrderTuple)
  : outcome (list T) :=
  match input with
  | [] => Returned []
  | (plugin, activeLoadOrderIndex, isActive) :: rest =>
      match mapper plugin activeLoadOrderIndex isActive with
      | Raised what => Thrown (runtime_error what)
      | Mapped value =>
          match map_in_order mapper rest with
          | Returned values => Returned (value :: values)
          | Thrown e => Thrown e
          end
      end
  end.

Definition apply_mapper (mapper : Mapper) (t : LoadOrderTuple)
  : mapper_outcome T :=
  let '(plugin, activeLoadOrderIndex, isActive) := t in
  mapper plugin activeLoadOrderIndex isActive.

Definition succeeds (mapper : Mapper) (t : LoadOrderTuple) : Prop :=
  exists value, apply_mapper mapper t = Mapped value.

End LoadOrderMapper.

(** ** Sample environments

    Concrete collaborators on which the theorems below are instantiated. *)
Module Fixtures.

Definition game_type_of (g : GameId.t) : GameType.t :=
  match g with
  | GameId.tes3 => GameType.tes3
  | GameId.tes4 | GameId.nehrim => GameType.tes4
  | GameId.tes5 | GameId.enderal => GameType.tes5
  | GameId.tes5se | GameId.enderalse => GameType.tes5se
  | GameId.tes5vr => GameType.tes5vr
  | GameId.fo3 => GameType.fo3
  | GameId.fonv => GameType.fonv
  | GameId.fo4 => GameType.fo4
  | GameId.fo4vr => GameType.fo4vr
  | GameId.unrecognised raw => GameType.unrecognised raw
  end.

Definition master_of (g : GameId.t) : string :=
  match g with
  | GameId.tes3 => "Morrowind.esm"
  | GameId.tes4 => "Oblivion.esm"
  | GameId.nehrim => "Nehrim.esm"
  | GameId.tes5 | GameId.enderal | GameId.tes5se | GameId.enderalse
  | GameId.tes5vr => "Skyrim.esm"
  | GameId.fo3 => "Fallout3.esm"
  | GameId.fonv => "FalloutNV.esm"
  | GameId.fo4 | GameId.fo4vr => "Fallout4.esm"
  | GameId.unrecognised _ => ""
  end.

(** A filesystem given by the paths that exist in it and by those whose
    status cannot be determined. *)
Definition existing (files : list path) (p : path) : bool :=
  existsb (String.eqb p) files.

Definition status (files unreadable : list path) (p : path) : file_status :=
  if existing unreadable p then StatFailure
  else if existing files p then Present
  else Absent.

(** A validator that looks for the master file in the candidate path. *)
Definition accepts (files : list path) (_ : GameType.t) (master : string)
    (p : path) : bool :=
  existing files (p </> master).

Definition gog_ids (g : GameId.t) : list string :=
  match g with
  | GameId.tes3 => ["1440163901"; "1435828767"]
  | GameId.tes4 => ["1242989820"; "1458058109"]
  | GameId.nehrim => ["1497007810"]
  | _ => []
  end.

(** A registry is read by applying it to the value's location. *)
Definition env_with (files unreadable : list path) : Environment := {|
  fs := status files unreadable;
  GetGameType := game_type_of;
  GetMasterFilename := master_of;
  IsValidGamePathImpl := accepts files;
  GetGogGameIds := gog_ids;
  RegistryInterface := RegistryValue -> option path;
  ReadPathFromRegistryImpl := fun registry value => registry value
|}.

(** An environment in which the status of every path is known. *)
Definition env (files : list path) : Environment := env_with files [].

(** An Oblivion install from GOG whose Steam install script cannot be
    examined. *)
Definition unreadable_steam_marker : Environment :=
  env_with ["../Oblivion.esm"; "../goggame-1458058109.ico"]
    ["../installscript.vdf"].

(** An Oblivion install from Steam next to which the Nehrim launcher cannot
    be examined. *)
Definition unreadable_launcher : Environment :=
  env_with ["../Oblivion.esm"; "../installscript.vdf"]
    ["../NehrimLauncher.exe"].

(** An Oblivion install whose second GOG icon cannot be examined. *)
Definition unreadable_icon : Environment :=
  env_with ["../Oblivion.esm"] ["../goggame-1458058109.ico"].

(** An Oblivion install in the sibling directory that carries both the Steam
    install script and a GOG icon. *)
Definition steam_and_gog : list path :=
  ["../Oblivion.esm"; "../installscript.vdf"; "../goggame-1458058109.ico"].

(** An Oblivion install in the sibling directory with the Nehrim launcher
    next to it. *)
Definition oblivion_with_nehrim_launcher : list path :=
  ["../Oblivion.esm"; "../NehrimLauncher.exe"].

(** A plain Oblivion install with the markers of the Epic and Microsoft
    stores. *)
Definition epic_and_microsoft : list path :=
  ["../Oblivion.esm"; "../.egstore"; "../appxmanifest.xml"].

Definition oblivion_settings : GameSettings.t :=
  GameSettings.mk GameType.tes4 "Oblivion.esm" ".." "C:/Users/me/Oblivion".


(** A game given by its plugins. *)
Record plugin : Type := mkPlugin {
  plugin_name : string;
  plugin_light : bool;
  plugin_active : bool
}.

Definition find_plugin (plugins : list plugin) (n : string) : option plugin :=
  List.find (fun p => String.eqb (plugin_name p) n) plugins.

Definition game (plugins : list plugin) : GameState := {|
  PluginInterface := plugin;
  GetPlugin := find_plugin plugins;
  IsLightPlugin := plugin_light;
  IsPluginActive := fun n =>
    match find_plugin plugins n with
    | Some p => plugin_active p
    | None => false
    end
|}.

Definition a_esl : plugin := mkPlugin "a.esl" true true.
Definition b_esp : plugin := mkPlugin "b.esp" false true.
Definition c_esl : plugin := mkPlugin "c.esl" true true.
Definition d_esp : plugin := mkPlugin "d.esp" false true.
Definition e_esp : plugin := mkPlugin "e.esp" false false.

(** Active plugins in the order light, normal, light, normal, then an
    inactive one. *)
Definition interleaved : GameState :=
  game [a_esl; b_esp; c_esl; d_esp; e_esp].

(** The same load order with a name that no plugin bears. *)
Definition interleaved_load_order : list string :=
  ["a.esl"; "b.esp"; "missing.esp"; "c.esl"; "d.esp"; "e.esp"].

(** A mapper that reports the name and the index it was given. *)
Definition name_and_index : @Mapper interleaved (string * option Z) :=
  fun p index _ => Mapped (plugin_name p, index).

(** A mapper that fails on the normal plugins, each with its own message. *)
Definition fails_on_normal : @Mapper interleaved (string * option Z) :=
  fun p index _ =>
    if plugin_light p then Mapped (plugin_name p, index)
    else Raised ("cannot map " +:+ plugin_name p).

(** A game in which every name is that of an active normal plugin. *)
Definition crowded : GameState := {|
  PluginInterface := string;
  GetPlugin := fun n => Some n;
  IsLightPlugin := fun _ => false;
  IsPluginActive := fun _ => true
|}.

Fixpoint binary (p : positive) : string :=
  match p with
  | xH => "1"
  | xO q => binary q +:+ "0"
  | xI q => binary q +:+ "1"
  end.

Definition numbered_name (i : nat) : string :=
  "plugin" +:+ binary (Pos.of_succ_nat i) +:+ ".esp".

(** 32768 plugins with distinct names, and one more after them. *)
Definition overflowing_load_order : list string :=
  (numbered_name <$> seq 0 (Z.to_nat 32768)) ++ ["last.esp"].

End Fixtures.

(** ** Further notions

    Used by the properties of the last part of this file. *)

(** A source as the registry scan can report it: the scan knows nothing of
    the Epic and Microsoft stores. *)
Definition without_store_sources (s : InstallSource.t) : InstallSource.t :=
  match s with
  | InstallSource.epic | InstallSource.microsoft => InstallSource.unknown
  | _ => s
  end.

(** The existence check of one GOG icon. *)
Definition icon_probe (installPath : path) (gogGameId : string) : event :=
  FsExists (gogIconPath installPath gogGameId).

Section LoadOrderNotions.
Context `{GameState}.
Context {T : Type}.

(** The name is that of a plugin of the given kind. *)
Definition is_of_kind (light : bool) (pluginName : string) : bool :=
  match GetPlugin pluginName with
  | Some plugin => bool_decide (IsLightPlugin plugin = light)
  | None => false
  end.

(** The indices given to the plugins of one kind, in order. *)
Definition indices_of_kind (light : bool) (tuples : list LoadOrderTuple)
  : list Z :=
  omap (fun t : LoadOrderTuple =>
          if bool_decide (IsLightPlugin (fst (fst t)) = light)
          then snd (fst t) else None)
    tuples.

(** The line that a failing application leaves in the log. *)
Definition failure_line (mapper : @Mapper _ T) (t : LoadOrderTuple)
  : option string :=
  match apply_mapper mapper t with
  | Raised what => Some (log_line what)
  | Mapped _ => None
  end.

End LoadOrderNotions.

Module MoreFixtures.

(** A Skyrim VR directory that carries the markers of the other stores. *)
Definition skyrim_vr_with_store_markers : list path :=
  ["../Skyrim.esm"; "../.egstore"; "../appxmanifest.xml"].

Definition skyrim_vr_settings : GameSettings.t :=
  GameSettings.mk GameType.tes5vr "Skyrim.esm" ".." "C:/Users/me/SkyrimVR".

(** Settings whose family is not one the code knows. *)
Definition unknown_family_settings : GameSettings.t :=
  GameSettings.mk (GameType.unrecognised 42) "Oblivion.esm" ".."
    "C:/Users/me/Oblivion".

Definition unknown_family_missing_settings : GameSettings.t :=
  GameSettings.mk (GameType.unrecognised 42) "Oblivion.esm" "C:/Nowhere"
    "C:/Users/me/Oblivion".

Definition oblivion_location : RegistryValue :=
  mkRegistryValue "HKEY_LOCAL_MACHINE" "Software\Bethesda Softworks\Oblivion"
    "Installed Path".

(** A mapper that fails on every plugin but the first. *)
Definition fails_after_first
  : @Mapper Fixtures.interleaved (string * option Z) :=
  fun p index _ =>
    if String.eqb (Fixtures.plugin_name p) "a.esl"
    then Mapped (Fixtures.plugin_name p, index)
    else Raised (Fixtures.plugin_name p).

End MoreFixtures.

(** * Properties of the install detection *)

Ltac eff_norm :=
  cbn [result probes ret throw fst snd]; rewrite ?app_nil_r; try reflexivity.

Section DetectionFacts.
Context `{Environment}.

(** ** How the primitive computations run *)

Lemma bind_thrown {A B} (m : Eff A) (k : A -> Eff B) (e : exn) :
  result m = Thrown e -> bind m k = (Thrown e, probes m).
Proof. intros Hm. unfold bind. now rewrite Hm. Qed.

Lemma bind_run {A B} (m : Eff A) (k : A -> Eff B) (a : A) (evs : list event) :
  m = (Returned a, evs) ->
  bind m k = (result (k a), evs ++ probes (k a)).
Proof. intros ->. reflexivity. Qed.

Lemma bind_eq {A B} (m : Eff A) (k : A -> Eff B) (o : outcome A)
    (evs : list event) :
  m = (o, evs) ->
  bind m k = match o with
             | Returned a => (result (k a), evs ++ probes (k a))
             | Thrown e => (Thrown e, evs)
             end.
Proof. intros ->. now destruct o. Qed.

Lemma exists_run (p : path) :
  exists_ p = (exists_outcome p, [FsExists p]).
Proof. unfold exists_, exists_outcome. now destruct (fs p). Qed.

Lemma IsValidGamePath_run (t : GameType.t) (master : string) (p : path) :
  IsValidGamePath t master p
  = (Returned (IsValidGamePathImpl t master p), [ValidityCheck t master p]).
Proof. reflexivity. Qed.

Lemma IsSteamInstall_run (g : GameId.t) (p : path) :
  IsSteamInstall g p = (steam_check g p, steam_probes g p).
Proof. destruct g; try reflexivity; apply exists_run. Qed.

Lemma IsGogInstall_loop_run (ids : list string) (p : path) :
  IsGogInstall_loop ids p = (gog_check_of ids p, gog_probes_of ids p).
Proof.
  induction ids as [|id rest IH]; [reflexivity|].
  cbn [IsGogInstall_loop gog_check_of gog_probes_of].
  rewrite (bind_eq _ _ _ _ (exists_run _)).
  change (p </> ("goggame-" +:+ id +:+ ".ico")) with (gogIconPath p id).
  unfold exists_outcome.
  destruct (fs (gogIconPath p id)); [reflexivity| |reflexivity].
  now rewrite IH.
Qed.

Lemma IsGogInstall_run (g : GameId.t) (p : path) :
  IsGogInstall g p = (gog_check g p, gog_probes g p).
Proof. apply IsGogInstall_loop_run. Qed.

Lemma DetectGameId_run (t : GameType.t) (p : path) :
  DetectGameId t p = (resolve_identity t p, resolve_probes t p).
Proof.
  destruct t; try reflexivity;
    unfold DetectGameId, resolve_identity, resolve_probes;
    cbn [GameType.recognised variant_of base_identity];
    rewrite (bind_eq _ _ _ _ (exists_run _));
    now destruct (exists_outcome _) as [[|]|e].
Qed.


(** The four-way cascade shared by [DetectGameInstall] and
    [FindSiblingGameInstall]: the source it settles on or the error that
    ends it, and the checks it makes on the way. *)
Lemma four_way_cascade (g : GameId.t) (p : path) (lp : option path) :
  (let! isSteam := IsSteamInstall g p in
   if isSteam then ret (Some (mkGameInstall g InstallSource.steam p lp))
   else
     let! isGog := IsGogInstall g p in
     if isGog then ret (Some (mkGameInstall g InstallSource.gog p lp))
     else
       let! isEpic := IsEpicInstall p in
       if isEpic then ret (Some (mkGameInstall g InstallSource.epic p lp))
       else
         let! isMicrosoft := IsMicrosoftInstall p in
         if isMicrosoft then
           ret (Some (mkGameInstall g InstallSource.microsoft p lp))
         else ret (Some (mkGameInstall g InstallSource.unknown p lp)))
  = (install_of g p lp (four_way_source g p), four_way_probes g p).
Proof.
  unfold four_way_source, four_way_probes, first_match.
  rewrite (bind_eq _ _ _ _ (IsSteamInstall_run g p)).
  destruct (steam_check g p) as [[|]|e]; [now eff_norm| |now eff_norm].
  rewrite (bind_eq _ _ _ _ (IsGogInstall_run g p)).
  destruct (gog_check g p) as [[|]|e]; [now eff_norm| |now eff_norm].
  unfold IsEpicInstall, IsMicrosoftInstall, epic_check, microsoft_check.
  rewrite (bind_eq _ _ _ _ (exists_run _)).
  destruct (exists_outcome (p </> ".egstore")) as [[|]|e];
    [now eff_norm| |now eff_norm].
  rewrite (bind_eq _ _ _ _ (exists_run _)).
  now destruct (exists_outcome (p </> "appxmanifest.xml")) as [[|]|e].
Qed.

Lemma two_way_cascade (g : GameId.t) (p : path) :
  (let! isSteam := IsSteamInstall g p in
   if isSteam then ret (Some (mkGameInstall g InstallSource.steam p None))
   else
     let! isGog := IsGogInstall g p in
     if isGog then ret (Some (mkGameInstall g InstallSource.gog p None))
     else ret (Some (mkGameInstall g InstallSource.unknown p None)))
  = (install_of g p None (two_way_source g p), two_way_probes g p).
Proof.
  unfold two_way_source, two_way_probes, first_match.
  rewrite (bind_eq _ _ _ _ (IsSteamInstall_run g p)).
  destruct (steam_check g p) as [[|]|e]; [now eff_norm| |now eff_norm].
  rewrite (bind_eq _ _ _ _ (IsGogInstall_run g p)).
  destruct (gog_check g p) as [[|]|e]; now eff_norm.
Qed.

Lemma DetectGameInstall_valid (settings : GameSettings.t) :
  let t := GameSettings.Type_ settings in
  let p := GameSettings.GamePath settings in
  IsValidGamePathImpl t (GameSettings.Master settings) p = true ->
  DetectGameInstall settings
  = (match resolve_identity t p with
     | Returned g =>
         install_of g p (Some (GameSettings.GameLocalPath settings))
           (four_way_source g p)
     | Thrown e => Thrown e
     end,
     ValidityCheck t (GameSettings.Master settings) p
     :: resolve_probes t p
        ++ match resolve_identity t p with
           | Returned g => four_way_probes g p
           | Thrown _ => []
           end).
Proof.
  intros t p Hvalid. subst t p. unfold DetectGameInstall.
  rewrite (bind_run _ _ _ _ (IsValidGamePath_run _ _ _)), Hvalid.
  cbn [negb].
  rewrite (bind_eq _ _ _ _ (DetectGameId_run _ _)).
  destruct (resolve_identity _ _) as [g|e]; [|now eff_norm].
  now rewrite four_way_cascade.
Qed.

Lemma DetectGameInstall_invalid (settings : GameSettings.t) :
  IsValidGamePathImpl (GameSettings.Type_ settings)
    (GameSettings.Master settings) (GameSettings.GamePath settings) = false ->
  DetectGameInstall settings
  = (Returned None,
     [ValidityCheck (GameSettings.Type_ settings)
        (GameSettings.Master settings) (GameSettings.GamePath settings)]).
Proof.
  intros Hvalid. unfold DetectGameInstall.
  rewrite (bind_run _ _ _ _ (IsValidGamePath_run _ _ _)), Hvalid.
  reflexivity.
Qed.

Lemma FindSiblingGameInstall_valid (g : GameId.t) :
  IsValidGamePathImpl (GetGameType g) (GetMasterFilename g) ".." = true ->
  FindSiblingGameInstall g
  = (install_of g ".." None (four_way_source g ".."),
     ValidityCheck (GetGameType g) (GetMasterFilename g) ".."
     :: four_way_probes g "..").
Proof.
  intros Hvalid. unfold FindSiblingGameInstall.
  rewrite (bind_run _ _ _ _ (IsValidGamePath_run _ _ _)), Hvalid.
  cbn [negb].
  now rewrite four_way_cascade.
Qed.

Lemma FindSiblingGameInstall_invalid (g : GameId.t) :
  IsValidGamePathImpl (GetGameType g) (GetMasterFilename g) ".." = false ->
  FindSiblingGameInstall g
  = (Returned None,
     [ValidityCheck (GetGameType g) (GetMasterFilename g) ".."]).
Proof.
  intros Hvalid. unfold FindSiblingGameInstall.
  rewrite (bind_run _ _ _ _ (IsValidGamePath_run _ _ _)), Hvalid.
  reflexivity.
Qed.

(** ** What the checks amount to when every status is known *)

Lemma exists_outcome_returns (p : path) :
  every_status_known -> exists b, exists_outcome p = Returned b.
Proof.
  intros Hknown. unfold exists_outcome. specialize (Hknown p).
  destruct (fs p); eauto. now destruct Hknown.
Qed.

Lemma steam_check_returns (g : GameId.t) (p : path) :
  every_status_known -> GameId.recognised g = true ->
  exists b, steam_check g p = Returned b.
Proof.
  intros Hknown Hg. unfold steam_check.
  destruct g; try discriminate Hg; cbn; eauto;
    now apply exists_outcome_returns.
Qed.

Lemma gog_check_returns (g : GameId.t) (p : path) :
  every_status_known -> exists b, gog_check g p = Returned b.
Proof.
  intros Hknown. unfold gog_check.
  induction (GetGogGameIds g) as [|id rest IH]; cbn; [eauto|].
  destruct (exists_outcome_returns (p </> ("goggame-" +:+ id +:+ ".ico"))
              Hknown) as [[|] ->]; eauto.
Qed.

Lemma four_way_source_returns (g : GameId.t) (p : path) :
  every_status_known -> GameId.recognised g = true ->
  exists s, four_way_source g p = Returned s.
Proof.
  intros Hknown Hg. unfold four_way_source, first_match.
  destruct (steam_check_returns g p Hknown Hg) as [[|] ->]; [eauto|].
  destruct (gog_check_returns g p Hknown) as [[|] ->]; [eauto|].
  unfold epic_check, microsoft_check.
  destruct (exists_outcome_returns (p </> ".egstore") Hknown) as [[|] ->];
    [eauto|].
  destruct (exists_outcome_returns (p </> "appxmanifest.xml") Hknown)
    as [[|] ->]; eauto.
Qed.

Lemma two_way_source_returns (g : GameId.t) (p : path) :
  every_status_known -> GameId.recognised g = true ->
  exists s, two_way_source g p = Returned s.
Proof.
  intros Hknown Hg. unfold two_way_source, first_match.
  destruct (steam_check_returns g p Hknown Hg) as [[|] ->]; [eauto|].
  destruct (gog_check_returns g p Hknown) as [[|] ->]; eauto.
Qed.

End DetectionFacts.

Section RegistryFacts.
Context `{Environment}.

Lemma GetRegistryValue_run (g : GameId.t) :
  GameId.recognised g = true ->
  exists value, GetRegistryValue g = (Returned value, []).
Proof. destruct g; intros Hg; try discriminate Hg; eexists; reflexivity. Qed.

Lemma GetRegistryValue_unrecognised (g : GameId.t) :
  GameId.recognised g = false ->
  GetRegistryValue g = (Thrown (logic_error "Unrecognised game ID"), []).
Proof. destruct g; intros Hg; try discriminate Hg; reflexivity. Qed.

Lemma ReadPathFromRegistry_run (registry : RegistryInterface)
    (value : RegistryValue) :
  ReadPathFromRegistry registry value
  = (Returned (ReadPathFromRegistryImpl registry value),
     [RegistryRead value]).
Proof. reflexivity. Qed.

(** The three ways the registry scan of a recognised identity can go. *)
Lemma FindGameInstallInRegistry_run (registry : RegistryInterface)
    (g : GameId.t) (value : RegistryValue) :
  GetRegistryValue g = (Returned value, []) ->
  FindGameInstallInRegistry registry g
  = match ReadPathFromRegistryImpl registry value with
    | None => (Returned None, [RegistryRead value])
    | Some p =>
        if IsValidGamePathImpl (GetGameType g) (GetMasterFilename g) p then
          (install_of g p None (two_way_source g p),
           RegistryRead value
           :: ValidityCheck (GetGameType g) (GetMasterFilename g) p
           :: two_way_probes g p)
        else
          (Returned None,
           [RegistryRead value;
            ValidityCheck (GetGameType g) (GetMasterFilename g) p])
    end.
Proof.
  intros Hvalue. unfold FindGameInstallInRegistry.
  rewrite (bind_run _ _ _ _ Hvalue).
  rewrite (bind_run _ _ _ _ (ReadPathFromRegistry_run registry value)).
  destruct (ReadPathFromRegistryImpl registry value) as [p|]; [|reflexivity].
  rewrite (bind_run _ _ _ _ (IsValidGamePath_run _ _ _)).
  destruct (IsValidGamePathImpl _ _ p); [|reflexivity].
  now rewrite two_way_cascade.
Qed.

Lemma FindGameInstallInRegistry_unrecognised (registry : RegistryInterface)
    (g : GameId.t) :
  GameId.recognised g = false ->
  FindGameInstallInRegistry registry g
  = (Thrown (logic_error "Unrecognised game ID"), []).
Proof.
  intros Hg. unfold FindGameInstallInRegistry.
  now rewrite (bind_thrown _ _ _ (f_equal fst (GetRegistryValue_unrecognised g Hg))),
    GetRegistryValue_unrecognised.
Qed.

(** [FindGameInstalls] in terms of the two scans, errors included: an error
    of the sibling scan ends it before the registry is looked at. *)
Lemma FindGameInstalls_eq (registry : RegistryInterface) (g : GameId.t) :
  FindGameInstalls registry g
  = match result (FindSiblingGameInstall g) with
    | Thrown e => (Thrown e, probes (FindSiblingGameInstall g))
    | Returned sibling =>
        (match result (FindGameInstallInRegistry registry g) with
         | Thrown e => Thrown e
         | Returned registryInstall =>
             Returned (option_list sibling ++ option_list registryInstall)
         end,
         probes (FindSiblingGameInstall g)
         ++ probes (FindGameInstallInRegistry registry g))
    end.
Proof.
  unfold FindGameInstalls.
  destruct (FindSiblingGameInstall g) as [[sibling|e] evs1] eqn:Hs;
    [|reflexivity].
  rewrite (bind_run _ _ _ _ eq_refl).
  destruct (FindGameInstallInRegistry registry g)
    as [[registryInstall|e] evs2] eqn:Hr.
  - rewrite (bind_run _ _ _ _ eq_refl).
    destruct sibling, registryInstall; now eff_norm.
  - now rewrite (bind_eq _ _ _ _ eq_refl).
Qed.

Lemma FindSiblingGameInstall_returns (g : GameId.t) :
  every_status_known -> GameId.recognised g = true ->
  exists sibling evs, FindSiblingGameInstall g = (Returned sibling, evs).
Proof.
  intros Hknown Hg.
  destruct (IsValidGamePathImpl (GetGameType g) (GetMasterFilename g) "..")
    eqn:Hvalid.
  - rewrite FindSiblingGameInstall_valid by assumption.
    destruct (four_way_source_returns g ".." Hknown Hg) as [s ->].
    cbn [install_of]. eauto.
  - rewrite FindSiblingGameInstall_invalid by assumption. eauto.
Qed.

Lemma FindGameInstallInRegistry_returns (registry : RegistryInterface)
    (g : GameId.t) :
  every_status_known -> GameId.recognised g = true ->
  exists registryInstall evs,
    FindGameInstallInRegistry registry g = (Returned registryInstall, evs).
Proof.
  intros Hknown Hg. destruct (GetRegistryValue_run g Hg) as [value Hvalue].
  rewrite (FindGameInstallInRegistry_run registry g value Hvalue).
  destruct (ReadPathFromRegistryImpl registry value) as [p|]; [|eauto].
  destruct (IsValidGamePathImpl _ _ p); [|eauto].
  destruct (two_way_source_returns g p Hknown Hg) as [s ->].
  cbn [install_of]. eauto.
Qed.

(** ** The errors of a recognised input are those of the filesystem *)

Lemma exists_outcome_thrown (p : path) (e : exn) :
  exists_outcome p = Thrown e ->
  e = filesystem_error p /\ fs p = StatFailure.
Proof.
  unfold exists_outcome. destruct (fs p) eqn:Hp; try discriminate.
  now intros [= <-].
Qed.

Lemma steam_check_thrown (g : GameId.t) (p : path) (e : exn) :
  GameId.recognised g = true ->
  steam_check g p = Thrown e ->
  exists q, e = filesystem_error q /\ fs q = StatFailure
            /\ FsExists q ∈ steam_probes g p.
Proof.
  intros Hg. unfold steam_check, steam_probes.
  destruct g; try discriminate Hg; cbn [steam_rule_of]; try discriminate;
    intros He; apply exists_outcome_thrown in He as [-> Hq];
    eexists; (repeat split; [exact Hq|]); now apply list_elem_of_singleton.
Qed.

Lemma gog_check_thrown (g : GameId.t) (p : path) (e : exn) :
  gog_check g p = Thrown e ->
  exists q, e = filesystem_error q /\ fs q = StatFailure
            /\ FsExists q ∈ gog_probes g p.
Proof.
  unfold gog_check, gog_probes.
  induction (GetGogGameIds g) as [|id rest IH];
    cbn [gog_check_of gog_probes_of]; [discriminate|].
  change (p </> ("goggame-" +:+ id +:+ ".ico")) with (gogIconPath p id).
  unfold exists_outcome.
  destruct (fs (gogIconPath p id)) eqn:Hid; [discriminate| |].
  - intros He. destruct (IH He) as (q & -> & Hq & Hin).
    exists q. repeat split; [exact Hq|]. apply elem_of_cons. now right.
  - intros [= <-]. exists (gogIconPath p id). repeat split; [exact Hid|].
    apply elem_of_cons. now left.
Qed.

Lemma four_way_source_thrown (g : GameId.t) (p : path) (e : exn) :
  GameId.recognised g = true ->
  four_way_source g p = Thrown e ->
  exists q, e = filesystem_error q /\ fs q = StatFailure
            /\ FsExists q ∈ four_way_probes g p.
Proof.
  intros Hg. unfold four_way_source, four_way_probes, first_match.
  destruct (steam_check g p) as [[|]|e1] eqn:Hsteam; [discriminate| |].
  - destruct (gog_check g p) as [[|]|e2] eqn:Hgog; [discriminate| |].
    + unfold epic_check, microsoft_check.
      destruct (exists_outcome (p </> ".egstore")) as [[|]|e3] eqn:Hepic;
        [discriminate| |].
      * destruct (exists_outcome (p </> "appxmanifest.xml"))
          as [[|]|e4] eqn:Hms; try discriminate.
        intros [= <-]. apply exists_outcome_thrown in Hms as [-> Hq].
        eexists. repeat split; [exact Hq|].
        rewrite !elem_of_app. right. right.
        apply elem_of_cons. right. now apply list_elem_of_singleton.
      * intros [= <-]. apply exists_outcome_thrown in Hepic as [-> Hq].
        eexists. repeat split; [exact Hq|].
        rewrite !elem_of_app. right. right. apply elem_of_cons. now left.
    + intros [= <-]. apply gog_check_thrown in Hgog as (q & -> & Hq & Hin).
      exists q. repeat split; [exact Hq|].
      rewrite !elem_of_app. right. now left.
  - intros [= <-].
    apply (steam_check_thrown g p _ Hg) in Hsteam as (q & -> & Hq & Hin).
    exists q. repeat split; [exact Hq|].
    rewrite elem_of_app. now left.
Qed.


End RegistryFacts.

(** ** Specified properties of the detection *)

Section DetectionProperties.
Context `{Environment}.

Lemma four_way_source_cases (g : GameId.t) (p : path) :
  (steam_check g p = Returned true ->
   four_way_source g p = Returned InstallSource.steam)
  /\ (steam_check g p = Returned true -> gog_check g p = Returned true ->
      four_way_source g p = Returned InstallSource.steam)
  /\ (steam_check g p = Returned false -> gog_check g p = Returned true ->
      four_way_source g p = Returned InstallSource.gog)
  /\ (steam_check g p = Returned false -> gog_check g p = Returned false ->
      epic_check p = Returned true ->
      four_way_source g p = Returned InstallSource.epic)
  /\ (steam_check g p = Returned false -> gog_check g p = Returned false ->
      epic_check p = Returned false -> microsoft_check p = Returned true ->
      four_way_source g p = Returned InstallSource.microsoft)
  /\ (four_way_source g p = Returned InstallSource.unknown
      <-> steam_check g p = Returned false /\ gog_check g p = Returned false
          /\ epic_check p = Returned false
          /\ microsoft_check p = Returned false)
  /\ (forall e : exn,
         four_way_source g p = Thrown e
         <-> steam_check g p = Thrown e
             \/ (steam_check g p = Returned false
                 /\ (gog_check g p = Thrown e
                     \/ (gog_check g p = Returned false
                         /\ (epic_check p = Thrown e
                             \/ (epic_check p = Returned false
                                 /\ microsoft_check p = Thrown e)))))).
Proof.
  unfold four_way_source, first_match.
  destruct (steam_check g p) as [[|]|e1], (gog_check g p) as [[|]|e2],
    (epic_check p) as [[|]|e3], (microsoft_check p) as [[|]|e4];
    repeat split; intros; try congruence; try discriminate;
    repeat match goal with
           | Hc : _ /\ _ |- _ => destruct Hc
           | Hc : _ \/ _ |- _ => destruct Hc
           end; try congruence; try discriminate;
    try (left; congruence);
    try (right; split; [reflexivity|]; left; congruence);
    try (right; split; [reflexivity|]; right; split; [reflexivity|];
         left; congruence);
    try (right; split; [reflexivity|]; right; split; [reflexivity|];
         right; split; [reflexivity|]; congruence).
Qed.

(** C1. Source classification in [DetectGameInstall] and in the sibling scan
    is a strict priority list: Steam is consulted first, then GOG, then Epic,
    then Microsoft; the first match wins and [unknown] is returned only when
    none matches.  In particular a path holding both the Steam marker and a
    GOG icon is classified as [steam].  A check is consulted only when the
    earlier ones returned without a match, and a check that fails ends the
    classification with its error. *)
Theorem classification_is_a_priority_list :
  (forall settings : GameSettings.t,
      let t := GameSettings.Type_ settings in
      let p := GameSettings.GamePath settings in
      IsValidGamePathImpl t (GameSettings.Master settings) p = true ->
      DetectGameInstall settings
      = (match resolve_identity t p with
         | Returned g =>
             install_of g p (Some (GameSettings.GameLocalPath settings))
               (four_way_source g p)
         | Thrown e => Thrown e
         end,
         ValidityCheck t (GameSettings.Master settings) p
         :: resolve_probes t p
            ++ match resolve_identity t p with
               | Returned g => four_way_probes g p
               | Thrown _ => []
               end))
  /\ (forall g : GameId.t,
         IsValidGamePathImpl (GetGameType g) (GetMasterFilename g) ".." = true ->
         FindSiblingGameInstall g
         = (install_of g ".." None (four_way_source g ".."),
            ValidityCheck (GetGameType g) (GetMasterFilename g) ".."
            :: four_way_probes g ".."))
  /\ (forall (g : GameId.t) (p : path),
         (steam_check g p = Returned true ->
          four_way_source g p = Returned InstallSource.steam)
         /\ (steam_check g p = Returned true -> gog_check g p = Returned true ->
             four_way_source g p = Returned InstallSource.steam)
         /\ (steam_check g p = Returned false ->
             gog_check g p = Returned true ->
             four_way_source g p = Returned InstallSource.gog)
         /\ (steam_check g p = Returned false ->
             gog_check g p = Returned false ->
             epic_check p = Returned true ->
             four_way_source g p = Returned InstallSource.epic)
         /\ (steam_check g p = Returned false ->
             gog_check g p = Returned false ->
             epic_check p = Returned false ->
             microsoft_check p = Returned true ->
             four_way_source g p = Returned InstallSource.microsoft)
         /\ (four_way_source g p = Returned InstallSource.unknown
             <-> steam_check g p = Returned false
                 /\ gog_check g p = Returned false
                 /\ epic_check p = Returned false
                 /\ microsoft_check p = Returned false)
         /\ (forall e : exn,
                four_way_source g p = Thrown e
                <-> steam_check g p = Thrown e
                    \/ (steam_check g p = Returned false
                        /\ (gog_check g p = Thrown e
                            \/ (gog_check g p = Returned false
                                /\ (epic_check p = Thrown e
                                    \/ (epic_check p = Returned false
                                        /\ microsoft_check p = Thrown e)))))))
  /\ (forall (g : GameId.t) (p : path) (name : string),
         steam_rule_of g = SteamMarker name ->
         fs (p </> name) = Present ->
         four_way_source g p = Returned InstallSource.steam).
Proof.
  split; [|split; [|split]].
  - intros settings t p Hvalid.
    exact (DetectGameInstall_valid settings Hvalid).
  - intros g Hvalid. exact (FindSiblingGameInstall_valid g Hvalid).
  - exact four_way_source_cases.
  - intros g p name Hrule Hpresent.
    destruct (four_way_source_cases g p) as [Hsteam _]. apply Hsteam.
    unfold steam_check, exists_outcome. now rewrite Hrule, Hpresent.
Qed.

(** C2. The registry scan classifies a validated registry path with the
    Steam check and then the GOG check only; a path matching neither is
    [unknown], and the scan never yields an install whose source is [epic]
    or [microsoft].  A Steam or GOG check that fails ends the scan with its
    error. *)
Theorem registry_scan_checks_steam_and_gog_only
    (registry : RegistryInterface) (g : GameId.t) :
  (forall (value : RegistryValue) (p : path),
      GetRegistryValue g = (Returned value, []) ->
      ReadPathFromRegistryImpl registry value = Some p ->
      IsValidGamePathImpl (GetGameType g) (GetMasterFilename g) p = true ->
      FindGameInstallInRegistry registry g
      = (install_of g p None (two_way_source g p),
         RegistryRead value
         :: ValidityCheck (GetGameType g) (GetMasterFilename g) p
         :: two_way_probes g p))
  /\ (forall p : path,
         (steam_check g p = Returned true ->
          two_way_source g p = Returned InstallSource.steam)
         /\ (steam_check g p = Returned false ->
             gog_check g p = Returned true ->
             two_way_source g p = Returned InstallSource.gog)
         /\ (steam_check g p = Returned false ->
             gog_check g p = Returned false ->
             two_way_source g p = Returned InstallSource.unknown)
         /\ (forall e : exn,
                two_way_source g p = Thrown e
                <-> steam_check g p = Thrown e
                    \/ (steam_check g p = Returned false
                        /\ gog_check g p = Thrown e)))
  /\ (forall (p : path) (s : InstallSource.t),
         two_way_source g p = Returned s ->
         s <> InstallSource.epic /\ s <> InstallSource.microsoft)
  /\ (forall install : GameInstall,
         result (FindGameInstallInRegistry registry g)
         = Returned (Some install) ->
         source install <> InstallSource.epic
         /\ source install <> InstallSource.microsoft).
Proof.
  assert (Hsrc : forall p s, two_way_source g p = Returned s ->
                             s <> InstallSource.epic
                             /\ s <> InstallSource.microsoft).
  { intros p s. unfold two_way_source, first_match.
    destruct (steam_check g p) as [[|]|e1], (gog_check g p) as [[|]|e2];
      try discriminate; intros [= <-]; split; discriminate. }
  split; [|split; [|split]].
  - intros value p Hvalue Hread Hvalid.
    rewrite (FindGameInstallInRegistry_run registry g value Hvalue).
    now rewrite Hread, Hvalid.
  - intros p. unfold two_way_source, first_match.
    destruct (steam_check g p) as [[|]|e1], (gog_check g p) as [[|]|e2];
      repeat split; intros; try congruence; try discriminate;
      repeat match goal with
             | Hc : _ /\ _ |- _ => destruct Hc
             | Hc : _ \/ _ |- _ => destruct Hc
             end; try congruence; try discriminate;
      try (left; congruence); try (right; split; congruence).
  - exact Hsrc.
  - intros install.
    destruct (GameId.recognised g) eqn:Hg.
    + destruct (GetRegistryValue_run g Hg) as [value Hvalue].
      rewrite (FindGameInstallInRegistry_run registry g value Hvalue).
      destruct (ReadPathFromRegistryImpl registry value) as [p|];
        [|discriminate].
      destruct (IsValidGamePathImpl _ _ p); [|discriminate].
      cbn [result fst].
      destruct (two_way_source g p) as [s|e] eqn:Hs; [|discriminate].
      cbn [install_of]. intros [= <-]. now apply (Hsrc p).
    + rewrite FindGameInstallInRegistry_unrecognised by assumption.
      discriminate.
Qed.

(** C6. [FindGameInstalls] returns the sibling-scan result, if any, followed
    by the registry-scan result, if any: zero, one or two entries.  Nothing
    is de-duplicated, so two scans that yield the same install give two
    entries.  An error of either scan is the error of [FindGameInstalls];
    with a recognised identity and no failing existence check both scans
    return. *)
Theorem FindGameInstalls_concatenates
    (registry : RegistryInterface) (g : GameId.t) :
  FindGameInstalls registry g
  = match result (FindSiblingGameInstall g) with
    | Thrown e => (Thrown e, probes (FindSiblingGameInstall g))
    | Returned sibling =>
        (match result (FindGameInstallInRegistry registry g) with
         | Thrown e => Thrown e
         | Returned registryInstall =>
             Returned (option_list sibling ++ option_list registryInstall)
         end,
         probes (FindSiblingGameInstall g)
         ++ probes (FindGameInstallInRegistry registry g))
    end
  /\ (forall sibling registryInstall : option GameInstall,
         result (FindSiblingGameInstall g) = Returned sibling ->
         result (FindGameInstallInRegistry registry g)
         = Returned registryInstall ->
         result (FindGameInstalls registry g)
         = Returned (option_list sibling ++ option_list registryInstall)
         /\ length (option_list sibling ++ option_list registryInstall) <= 2
         /\ (forall a b : GameInstall,
                sibling = Some a -> registryInstall = Some b ->
                result (FindGameInstalls registry g) = Returned [a; b])
         /\ (forall a : GameInstall,
                sibling = Some a -> registryInstall = Some a ->
                result (FindGameInstalls registry g) = Returned [a; a]))
  /\ (every_status_known -> GameId.recognised g = true ->
      exists sibling registryInstall : option GameInstall,
        result (FindSiblingGameInstall g) = Returned sibling
        /\ result (FindGameInstallInRegistry registry g)
           = Returned registryInstall
        /\ result (FindGameInstalls registry g)
           = Returned (option_list sibling ++ option_list registryInstall)).
Proof.
  split; [apply FindGameInstalls_eq|].
  assert (Hboth : forall sibling registryInstall,
            result (FindSiblingGameInstall g) = Returned sibling ->
            result (FindGameInstallInRegistry registry g)
            = Returned registryInstall ->
            result (FindGameInstalls registry g)
            = Returned (option_list sibling ++ option_list registryInstall)).
  { intros sibling registryInstall Hs Hr.
    rewrite FindGameInstalls_eq, Hs. cbn [result fst]. now rewrite Hr. }
  split.
  - intros sibling registryInstall Hs Hr.
    rewrite (Hboth _ _ Hs Hr). repeat split.
    + destruct sibling, registryInstall; cbn; lia.
    + now intros a b -> ->.
    + now intros a -> ->.
  - intros Hknown Hg.
    destruct (FindSiblingGameInstall_returns g Hknown Hg)
      as (sibling & evs1 & Hs).
    destruct (FindGameInstallInRegistry_returns registry g Hknown Hg)
      as (registryInstall & evs2 & Hr).
    exists sibling, registryInstall.
    assert (Hs' : result (FindSiblingGameInstall g) = Returned sibling)
      by now rewrite Hs.
    assert (Hr' : result (FindGameInstallInRegistry registry g)
                  = Returned registryInstall) by now rewrite Hr.
    repeat split; [assumption|assumption|now apply Hboth].
Qed.


(** C8 (amended).  In the sibling scan the candidate path [".."] contributes
    no entry when the validator rejects it.  Otherwise the source
    classification runs with the identity the caller asked for: no
    variant-marker check is made, the only probes being the validity check
    and those of the classification.  The install it emits has that
    identity and no local-data path; it is emitted unless an existence check
    of the classification fails, whose filesystem error is then thrown. *)
Theorem sibling_scan_keeps_requested_identity (g : GameId.t) :
  GameId.recognised g = true ->
  let t := GetGameType g in
  let master := GetMasterFilename g in
  (IsValidGamePathImpl t master ".." = false ->
   FindSiblingGameInstall g = (Returned None, [ValidityCheck t master ".."]))
  /\ (IsValidGamePathImpl t master ".." = true ->
      FindSiblingGameInstall g
      = (install_of g ".." None (four_way_source g ".."),
         ValidityCheck t master ".." :: four_way_probes g "..")
      /\ match result (FindSiblingGameInstall g) with
         | Returned (Some install) =>
             gameId install = g /\ installPath install = ".."
             /\ localPath install = None
         | Returned None => False
         | Thrown e =>
             exists q, e = filesystem_error q /\ fs q = StatFailure
                       /\ FsExists q ∈ probes (FindSiblingGameInstall g)
         end
      /\ ((forall q : path,
              FsExists q ∈ probes (FindSiblingGameInstall g) ->
              fs q <> StatFailure) ->
          exists src : InstallSource.t,
            result (FindSiblingGameInstall g)
            = Returned (Some (mkGameInstall g src ".." None)))).
Proof.
  intros Hg t master. split; intros Hvalid.
  - exact (FindSiblingGameInstall_invalid g Hvalid).
  - rewrite (FindSiblingGameInstall_valid g Hvalid).
    cbn [result probes fst snd].
    split; [reflexivity|].
    destruct (four_way_source g "..") as [s|e] eqn:Hs; cbn [install_of].
    + split; [now repeat split|]. intros _. now exists s.
    + destruct (four_way_source_thrown g _ e Hg Hs) as (q & -> & Hq & Hin).
      split.
      * exists q. repeat split; [exact Hq|]. apply elem_of_cons. now right.
      * intros Hknown. destruct (Hknown q); [|exact Hq].
        apply elem_of_cons. now right.
Qed.

(** C9. For the families with a total-conversion variant ([tes4], [tes5],
    [tes5se]) identity resolution makes one existence check, that of the
    variant's launcher in the install path: it returns the variant
    ([nehrim], [enderal], [enderalse]) exactly when the check finds the
    launcher and the base identity when it finds it absent; a check that
    fails is thrown as it is.  The other families map to their identity
    whatever the path holds, without looking at it. *)
Theorem DetectGameId_resolves_variants (p : path) :
  DetectGameId GameType.tes4 p
  = (match fs (p </> "NehrimLauncher.exe") with
     | Present => Returned GameId.nehrim
     | Absent => Returned GameId.tes4
     | StatFailure => Thrown (filesystem_error (p </> "NehrimLauncher.exe"))
     end,
     [FsExists (p </> "NehrimLauncher.exe")])
  /\ DetectGameId GameType.tes5 p
     = (match fs (p </> "Enderal Launcher.exe") with
        | Present => Returned GameId.enderal
        | Absent => Returned GameId.tes5
        | StatFailure =>
            Thrown (filesystem_error (p </> "Enderal Launcher.exe"))
        end,
        [FsExists (p </> "Enderal Launcher.exe")])
  /\ DetectGameId GameType.tes5se p
     = (match fs (p </> "Enderal Launcher.exe") with
        | Present => Returned GameId.enderalse
        | Absent => Returned GameId.tes5se
        | StatFailure =>
            Thrown (filesystem_error (p </> "Enderal Launcher.exe"))
        end,
        [FsExists (p </> "Enderal Launcher.exe")])
  /\ DetectGameId GameType.tes3 p = (Returned GameId.tes3, [])
  /\ DetectGameId GameType.tes5vr p = (Returned GameId.tes5vr, [])
  /\ DetectGameId GameType.fo3 p = (Returned GameId.fo3, [])
  /\ DetectGameId GameType.fonv p = (Returned GameId.fonv, [])
  /\ DetectGameId GameType.fo4 p = (Returned GameId.fo4, [])
  /\ DetectGameId GameType.fo4vr p = (Returned GameId.fo4vr, [])
  /\ Forall (fun t => DetectGameId t p
                      = (resolve_identity t p, resolve_probes t p))
       GameType.all.
Proof.
  repeat split; try reflexivity;
    try (rewrite DetectGameId_run;
         unfold resolve_identity, resolve_probes, exists_outcome;
         cbn [GameType.recognised variant_of base_identity];
         now destruct (fs _)).
  repeat constructor; apply DetectGameId_run.
Qed.

Lemma no_check_shape {A} (a : A) :
  (returns (Returned a)
   <-> forall q, FsExists q ∈ @nil event -> fs q <> StatFailure)
  /\ forall e, Returned a = Thrown e ->
       exists q, e = filesystem_error q /\ fs q = StatFailure
                 /\ FsExists q ∈ @nil event.
Proof.
  split; [|discriminate]. split; [|exact (fun _ => I)].
  intros _ q Hq. now apply not_elem_of_nil in Hq.
Qed.

Lemma known_check_shape {A} (x : path) (a : A) :
  fs x <> StatFailure ->
  (returns (Returned a)
   <-> forall q, FsExists q ∈ [FsExists x] -> fs q <> StatFailure)
  /\ forall e, Returned a = Thrown e ->
       exists q, e = filesystem_error q /\ fs q = StatFailure
                 /\ FsExists q ∈ [FsExists x].
Proof.
  intros Hx. split; [|discriminate]. split; [|exact (fun _ => I)].
  intros _ q Hq. apply list_elem_of_singleton in Hq. now injection Hq as ->.
Qed.

Lemma failed_check_shape {A} (x : path) :
  fs x = StatFailure ->
  (returns (@Thrown A (filesystem_error x))
   <-> forall q, FsExists q ∈ [FsExists x] -> fs q <> StatFailure)
  /\ forall e, @Thrown A (filesystem_error x) = Thrown e ->
       exists q, e = filesystem_error q /\ fs q = StatFailure
                 /\ FsExists q ∈ [FsExists x].
Proof.
  intros Hx. split.
  - split; [intros []|]. intros Hall. apply (Hall x); [|exact Hx].
    now apply list_elem_of_singleton.
  - intros e [= <-]. exists x. repeat split; [exact Hx|].
    now apply list_elem_of_singleton.
Qed.

(** C10 (amended).  The identity resolver, the Steam classifier and the
    registry-key table throw a logic error exactly when their input is
    outside the recognised set of families or identities.  For a recognised
    input the registry-key table always returns; the resolver and the
    classifier return exactly when the existence check they make, if any,
    does not fail, and otherwise throw the filesystem error of that check,
    never a logic error. *)
Theorem unrecognised_input_is_a_logic_error :
  (forall (t : GameType.t) (p : path),
      (throws_logic_error (result (DetectGameId t p))
       <-> GameType.recognised t = false)
      /\ (GameType.recognised t = true ->
          (returns (result (DetectGameId t p))
           <-> forall q, FsExists q ∈ probes (DetectGameId t p) ->
                         fs q <> StatFailure)
          /\ forall e, result (DetectGameId t p) = Thrown e ->
               exists q, e = filesystem_error q /\ fs q = StatFailure
                         /\ FsExists q ∈ probes (DetectGameId t p)))
  /\ (forall (g : GameId.t) (p : path),
         (throws_logic_error (result (IsSteamInstall g p))
          <-> GameId.recognised g = false)
         /\ (GameId.recognised g = true ->
             (returns (result (IsSteamInstall g p))
              <-> forall q, FsExists q ∈ probes (IsSteamInstall g p) ->
                            fs q <> StatFailure)
             /\ forall e, result (IsSteamInstall g p) = Thrown e ->
                  exists q, e = filesystem_error q /\ fs q = StatFailure
                            /\ FsExists q ∈ probes (IsSteamInstall g p)))
  /\ (forall g : GameId.t,
         (throws_logic_error (result (GetRegistryValue g))
          <-> GameId.recognised g = false)
         /\ (returns (result (GetRegistryValue g))
             <-> GameId.recognised g = true)).
Proof.
  split; [|split].
  - intros t p. rewrite DetectGameId_run. cbn [result probes fst snd].
    unfold resolve_identity, resolve_probes, exists_outcome.
    destruct t; cbn [GameType.recognised variant_of base_identity];
      try (split; [split; [intros []|discriminate]|intros _];
           exact (no_check_shape _));
      try (split; [split; [reflexivity|exact (fun _ => I)]|discriminate]);
      match goal with
      | |- context [fs ?x] => destruct (fs x) eqn:Hx
      end;
      (split; [split; [intros []|discriminate]|intros _]);
      first [ apply failed_check_shape; exact Hx
            | apply known_check_shape; congruence ].
  - intros g p. rewrite IsSteamInstall_run. cbn [result probes fst snd].
    unfold steam_check, steam_probes, exists_outcome.
    destruct g; cbn [GameId.recognised steam_rule_of];
      try (split; [split; [intros []|discriminate]|intros _];
           exact (no_check_shape _));
      try (split; [split; [reflexivity|exact (fun _ => I)]|discriminate]);
      match goal with
      | |- context [fs ?x] => destruct (fs x) eqn:Hx
      end;
      (split; [split; [intros []|discriminate]|intros _]);
      first [ apply failed_check_shape; exact Hx
            | apply known_check_shape; congruence ].
  - intros g. destruct g; cbn; split; split; intros Hx;
      try reflexivity; try discriminate; try exact I; try contradiction.
Qed.

End DetectionProperties.

(** ** The properties on sample environments *)

Lemma sample_status_known (files : list path) :
  @every_status_known (Fixtures.env files).
Proof.
  intros p. cbn. unfold Fixtures.status. cbn.
  destruct (Fixtures.existing files p); discriminate.
Qed.

(** An Oblivion install in [".."] with both the Steam install script and a
    GOG icon is a Steam install, for the sibling scan and for
    [DetectGameInstall] alike.  With the install script unreadable, the
    sibling scan ends with the error of that check although a GOG icon is
    there. *)
Lemma classification_is_a_priority_list_witness :
  let E := Fixtures.env Fixtures.steam_and_gog in
  @gog_check E GameId.tes4 ".." = Returned true
  /\ result (@FindSiblingGameInstall E GameId.tes4)
     = Returned (Some (mkGameInstall GameId.tes4 InstallSource.steam ".."
                         None))
  /\ result (@DetectGameInstall E Fixtures.oblivion_settings)
     = Returned (Some (mkGameInstall GameId.tes4 InstallSource.steam ".."
                         (Some "C:/Users/me/Oblivion")))
  /\ @FindSiblingGameInstall Fixtures.unreadable_steam_marker GameId.tes4
     = (Thrown (filesystem_error "../installscript.vdf"),
        [ValidityCheck GameType.tes4 "Oblivion.esm" "..";
         FsExists "../installscript.vdf"]).
Proof.
  intros E.
  destruct (@classification_is_a_priority_list E) as (Hdetect & Hsibling & _).
  destruct (@classification_is_a_priority_list
              Fixtures.unreadable_steam_marker) as (_ & Hfailing & _).
  split; [reflexivity|]. split; [|split].
  - rewrite (Hsibling GameId.tes4 eq_refl). reflexivity.
  - rewrite (Hdetect Fixtures.oblivion_settings eq_refl). reflexivity.
  - rewrite (Hfailing GameId.tes4 eq_refl). reflexivity.
Defined.

(** A registry path that holds the Epic and Microsoft markers but neither a
    Steam nor a GOG one is classified as [unknown]. *)
Lemma registry_scan_checks_steam_and_gog_only_witness :
  let E := Fixtures.env Fixtures.epic_and_microsoft in
  let registry : @RegistryInterface E := fun _ => Some ".." in
  @epic_check E ".." = Returned true
  /\ @microsoft_check E ".." = Returned true
  /\ @FindGameInstallInRegistry E registry GameId.tes4
     = (Returned (Some (mkGameInstall GameId.tes4 InstallSource.unknown ".."
                          None)),
        [RegistryRead (mkRegistryValue "HKEY_LOCAL_MACHINE"
                         "Software\Bethesda Softworks\Oblivion"
                         "Installed Path");
         ValidityCheck GameType.tes4 "Oblivion.esm" "..";
         FsExists "../installscript.vdf";
         FsExists "../goggame-1242989820.ico";
         FsExists "../goggame-1458058109.ico"]).
Proof.
  intros E registry.
  destruct (@registry_scan_checks_steam_and_gog_only E registry GameId.tes4)
    as (Hrun & _ & _).
  split; [reflexivity|]. split; [reflexivity|].
  rewrite (Hrun _ ".." eq_refl eq_refl eq_refl). reflexivity.
Defined.

(** The sibling directory and the registry both lead to the same install:
    it is listed twice. *)
Lemma FindGameInstalls_concatenates_witness :
  let E := Fixtures.env Fixtures.steam_and_gog in
  let registry : @RegistryInterface E := fun _ => Some ".." in
  let install :=
    mkGameInstall GameId.tes4 InstallSource.steam ".." None in
  result (@FindGameInstalls E registry GameId.tes4)
  = Returned [install; install].
Proof.
  intros E registry install.
  destruct (@FindGameInstalls_concatenates E registry GameId.tes4)
    as (_ & Hboth & Hreturns).
  destruct (Hreturns (sample_status_known _) eq_refl)
    as (sibling & registryInstall & Hs & Hr & _).
  destruct (Hboth sibling registryInstall Hs Hr) as (_ & _ & _ & Hsame).
  apply Hsame.
  - vm_compute in Hs. now inversion Hs.
  - vm_compute in Hr. now inversion Hr.
Defined.



(** C8 as worded fails: asked for Oblivion in a directory that also holds the
    Nehrim launcher, the sibling scan reports Oblivion, whereas resolving the
    identity from the family and the path gives Nehrim. *)
Lemma sibling_scan_as_worded_fails :
  ~ @sibling_scan_as_worded
      (Fixtures.env Fixtures.oblivion_with_nehrim_launcher) GameId.tes4.
Proof.
  intros [_ Haccepted].
  destruct (Haccepted eq_refl) as (resolved & src & Hresolved & Hsrc).
  vm_compute in Hresolved. injection Hresolved as <-.
  vm_compute in Hsrc. discriminate Hsrc.
Qed.

Lemma sibling_scan_keeps_requested_identity_witness :
  let E := Fixtures.env Fixtures.oblivion_with_nehrim_launcher in
  result (@DetectGameId E (@GetGameType E GameId.tes4) "..")
  = Returned GameId.nehrim
  /\ result (@FindSiblingGameInstall E GameId.tes4)
     = Returned (Some (mkGameInstall GameId.tes4 InstallSource.unknown ".."
                         None))
  /\ result (@FindSiblingGameInstall E GameId.nehrim) = Returned None.
Proof.
  intros E. split; [reflexivity|]. split.
  - destruct (@sibling_scan_keeps_requested_identity E GameId.tes4 eq_refl)
      as [_ Haccepted].
    destruct (Haccepted eq_refl) as (Hrun & _).
    rewrite Hrun. reflexivity.
  - destruct (@sibling_scan_keeps_requested_identity E GameId.nehrim eq_refl)
      as [Hrejected _].
    rewrite (Hrejected eq_refl). reflexivity.
Defined.

(** C10 as worded fails: [tes4] is a recognised family, yet identity
    resolution throws when the Nehrim launcher cannot be examined. *)
Lemma raising_as_worded_fails :
  ~ @raising_as_worded Fixtures.unreadable_launcher GameType.tes4
      GameId.tes4 "..".
Proof.
  intros ((_ & Hreturns) & _).
  apply Hreturns. reflexivity.
Qed.

Lemma unrecognised_input_is_a_logic_error_witness :
  returns (result (@DetectGameId (Fixtures.env Fixtures.steam_and_gog)
                     GameType.tes4 ".."))
  /\ returns (result (@IsSteamInstall (Fixtures.env Fixtures.steam_and_gog)
                        GameId.tes4 ".."))
  /\ exists q : path,
       result (@IsSteamInstall Fixtures.unreadable_steam_marker GameId.tes4
                 "..")
       = Thrown (filesystem_error q)
       /\ @fs Fixtures.unreadable_steam_marker q = StatFailure.
Proof.
  destruct (@unrecognised_input_is_a_logic_error
              (Fixtures.env Fixtures.steam_and_gog)) as (Hid & Hsteam & _).
  destruct (@unrecognised_input_is_a_logic_error
              Fixtures.unreadable_steam_marker) as (_ & Hfailing & _).
  split; [|split].
  - destruct (Hid GameType.tes4 "..") as (_ & Hknown).
    destruct (Hknown eq_refl) as [Hreturns _]. apply Hreturns.
    intros q _. apply sample_status_known.
  - destruct (Hsteam GameId.tes4 "..") as (_ & Hknown).
    destruct (Hknown eq_refl) as [Hreturns _]. apply Hreturns.
    intros q _. apply sample_status_known.
  - destruct (Hfailing GameId.tes4 "..") as (_ & Hknown).
    destruct (Hknown eq_refl) as [_ Hthrown].
    destruct (Hthrown (filesystem_error "../installscript.vdf") eq_refl)
      as (q & Hq & Hfs & _).
    exists q. split; [|exact Hfs]. now rewrite <- Hq.
Defined.
(** * Properties of the load-order mapper *)

(** ** [short] arithmetic *)

Lemma wrap_small (z : Z) :
  (Short.min_value <= z <= Short.max_value)%Z -> Short.wrap z = z.
Proof.
  unfold Short.wrap, Short.min_value, Short.max_value. intros Hz.
  rewrite Z.mod_small; lia.
Qed.

Lemma wrap_range (z : Z) :
  (Short.min_value <= Short.wrap z <= Short.max_value)%Z.
Proof.
  unfold Short.wrap, Short.min_value, Short.max_value.
  pose proof (Z.mod_pos_bound (z + 32768) 65536 eq_refl). lia.
Qed.

Lemma incr_wrap (z : Z) : Short.incr (Short.wrap z) = Short.wrap (z + 1).
Proof.
  unfold Short.incr, Short.wrap.
  replace ((z + 32768) mod 65536 - 32768 + 1 + 32768)%Z
    with ((z + 32768) mod 65536 + 1)%Z by lia.
  replace (z + 1 + 32768)%Z with ((z + 32768) + 1)%Z by lia.
  now rewrite Zplus_mod_idemp_l.
Qed.

Lemma omap_ext_in {A B} (f g : A -> option B) (l : list A) :
  (forall x, x ∈ l -> f x = g x) -> omap f l = omap g l.
Proof.
  intros Hfg. apply list_omap_ext, Forall2_same_length_lookup.
  split; [reflexivity|]. intros i x y Hx Hy.
  rewrite Hx in Hy. injection Hy as <-.
  apply Hfg. now apply list_elem_of_lookup_2 in Hx.
Qed.

Section Phase1Facts.
Context `{GameState}.

Lemma phase1_snoc (loadOrder : list string) (pluginName : string) :
  phase1 (loadOrder ++ [pluginName])
  = phase1_step (phase1 loadOrder) pluginName.
Proof. unfold phase1. now rewrite fold_left_app. Qed.

Lemma count_active_snoc (light : bool) (names : list string) (n : string) :
  count_active light (names ++ [n])
  = (count_active light names
     + if is_active_of_kind light n then 1 else 0)%nat.
Proof.
  unfold count_active. rewrite filter_app, length_app. f_equal.
  destruct (is_active_of_kind light n) eqn:Hn.
  - now rewrite filter_cons_True.
  - rewrite filter_cons_False; [reflexivity|]. now rewrite Hn.
Qed.

Lemma index_short_succ (count : nat) :
  Short.incr (index_short count) = index_short (count + 1).
Proof.
  unfold index_short. rewrite incr_wrap. f_equal. lia.
Qed.

(** The two counters hold the numbers of active light and active normal
    plugins met so far, as [short] values. *)
Lemma phase1_counters (loadOrder : list string) :
  numberOfActiveLightPlugins (phase1 loadOrder)
  = index_short (count_active true loadOrder)
  /\ numberOfActiveNormalPlugins (phase1 loadOrder)
     = index_short (count_active false loadOrder).
Proof.
  induction loadOrder as [|n names [IHl IHn]] using rev_ind;
    [split; reflexivity|].
  rewrite phase1_snoc, !count_active_snoc.
  unfold phase1_step, is_active_of_kind.
  destruct (GetPlugin n) as [plugin|]; [|now rewrite !Nat.add_0_r].
  destruct (IsLightPlugin plugin), (IsPluginActive n); cbn;
    rewrite ?Nat.add_0_r, ?IHl, ?IHn, ?index_short_succ; split; reflexivity.
Qed.

Lemma tuple_at_app (index : nat -> Z) (names : list string) (n : string)
    (i : nat) :
  (i < length names)%nat ->
  tuple_at index (names ++ [n]) i = tuple_at index names i.
Proof.
  intros Hi. unfold tuple_at.
  rewrite lookup_app_l by assumption.
  now rewrite take_app_le by lia.
Qed.

Lemma tuple_at_last (index : nat -> Z) (names : list string) (n : string) :
  tuple_at index (names ++ [n]) (length names)
  = match GetPlugin n with
    | None => None
    | Some plugin =>
        Some (plugin,
              if IsPluginActive n then
                Some (index (count_active (IsLightPlugin plugin) names))
              else None,
              IsPluginActive n)
    end.
Proof.
  unfold tuple_at.
  rewrite list_lookup_middle by reflexivity.
  now rewrite take_app_length.
Qed.

Lemma tuples_of_snoc (index : nat -> Z) (names : list string) (n : string) :
  tuples_of index (names ++ [n])
  = tuples_of index names
    ++ option_list (tuple_at index (names ++ [n]) (length names)).
Proof.
  unfold tuples_of. rewrite length_app. cbn [length].
  rewrite Nat.add_1_r, seq_S, omap_app. f_equal.
  apply omap_ext_in. intros i Hi. apply elem_of_seq in Hi.
  apply tuple_at_app. lia.
Qed.

(** Phase 1 yields, in load-order order, the tuples of the names whose plugin
    is found, the index being the running count held in a [short]. *)
Lemma phase1_data (loadOrder : list string) :
  data (phase1 loadOrder) = tuples_of index_short loadOrder.
Proof.
  induction loadOrder as [|n names IH] using rev_ind; [reflexivity|].
  rewrite phase1_snoc, tuples_of_snoc, tuple_at_last, <- IH.
  destruct (phase1_counters names) as [Hl Hn].
  unfold phase1_step.
  destruct (GetPlugin n) as [plugin|]; [|now rewrite app_nil_r].
  rewrite Hl, Hn.
  destruct (IsLightPlugin plugin), (IsPluginActive n); reflexivity.
Qed.

Lemma tuples_of_plugins (index : nat -> Z) (loadOrder : list string) :
  (fun t : LoadOrderTuple => fst (fst t)) <$> tuples_of index loadOrder
  = omap GetPlugin loadOrder.
Proof.
  induction loadOrder as [|n names IH] using rev_ind; [reflexivity|].
  rewrite tuples_of_snoc, tuple_at_last, fmap_app, omap_app, IH. f_equal.
  cbn. now destruct (GetPlugin n).
Qed.

Lemma tuples_of_exact (loadOrder : list string) :
  (Z.of_nat (count_active true loadOrder) <= 32768)%Z ->
  (Z.of_nat (count_active false loadOrder) <= 32768)%Z ->
  tuples_of index_short loadOrder = tuples_of index_exact loadOrder.
Proof.
  intros Hl Hn. unfold tuples_of. apply omap_ext_in.
  intros i Hi. apply elem_of_seq in Hi. unfold tuple_at.
  destruct (loadOrder !! i) as [n|] eqn:Hlookup; [|reflexivity].
  destruct (GetPlugin n) as [plugin|] eqn:Hplugin; [|reflexivity].
  destruct (IsPluginActive n) eqn:Hactive; [|reflexivity].
  unfold index_short, index_exact. rewrite wrap_small; [reflexivity|].
  assert (Hlt : (count_active (IsLightPlugin plugin) (take i loadOrder)
                 < count_active (IsLightPlugin plugin) loadOrder)%nat).
  { rewrite <- (take_drop_middle loadOrder i n Hlookup) at 2.
    rewrite (cons_middle n), app_assoc.
    unfold count_active at 2. rewrite filter_app, length_app.
    fold (count_active (IsLightPlugin plugin) (take i loadOrder ++ [n])).
    rewrite count_active_snoc. unfold is_active_of_kind.
    rewrite Hplugin, Hactive, bool_decide_eq_true_2 by reflexivity.
    cbn. lia. }
  unfold Short.min_value, Short.max_value.
  destruct (IsLightPlugin plugin); lia.
Qed.

End Phase1Facts.

Section Phase23Facts.
Context `{GameState}.
Context {T : Type}.
Variable T_default : T.
Variable logger_configured : bool.
Variable mapper : @Mapper _ T.
Variable input : list LoadOrderTuple.

Local Abbreviation slot := (slot_of logger_configured mapper).
Local Abbreviation lines := (lines_at logger_configured mapper input).
Local Abbreviation write := (phase2_write logger_configured mapper input).

Lemma phase2_write_slots (st : phase2_state) (i : nat) :
  maybeMappedData (write st i)
  = match input !! i with
    | Some t => <[i:=slot t]> (maybeMappedData st)
    | None => maybeMappedData st
    end.
Proof.
  unfold phase2_write, slot_of.
  destruct (input !! i) as [t|]; [|reflexivity].
  now destruct (transformer logger_configured mapper t).
Qed.

Lemma phase2_write_logged (st : phase2_state) (i : nat) :
  logged (write st i) = logged st ++ lines i.
Proof.
  unfold phase2_write, lines_at, lines_of.
  destruct (input !! i) as [t|]; [|now rewrite app_nil_r].
  now destruct (transformer logger_configured mapper t).
Qed.

Lemma phase2_write_length (st : phase2_state) (i : nat) :
  length (maybeMappedData (write st i)) = length (maybeMappedData st).
Proof.
  rewrite phase2_write_slots.
  destruct (input !! i); [apply length_insert|reflexivity].
Qed.

(** After any sequence of writes, slot [i] holds the transformed element
    [i] if [i] was scheduled, and what it held before otherwise. *)
Lemma phase2_fold_lookup (schedule : list nat) (st : phase2_state) (i : nat) :
  length (maybeMappedData st) = length input ->
  maybeMappedData (fold_left write schedule st) !! i
  = if decide (i ∈ schedule) then slot <$> input !! i
    else maybeMappedData st !! i.
Proof.
  revert st. induction schedule as [|j rest IH]; intros st Hlen.
  - cbn [fold_left]. rewrite decide_False; [reflexivity|]. apply not_elem_of_nil.
  - cbn [fold_left].
    rewrite IH by now rewrite phase2_write_length.
    destruct (decide (i ∈ rest)) as [Hin|Hnotin].
    + rewrite decide_True; [reflexivity|]. apply elem_of_cons. now right.
    + rewrite phase2_write_slots.
      destruct (decide (i = j)) as [->|Hne].
      * rewrite decide_True by (apply elem_of_cons; now left).
        destruct (input !! j) as [t|] eqn:Hj.
        -- rewrite list_lookup_insert_eq; [reflexivity|].
           rewrite Hlen. now apply lookup_lt_Some in Hj.
        -- apply lookup_ge_None. rewrite Hlen. now apply lookup_ge_None.
      * rewrite decide_False.
        -- destruct (input !! j); [|reflexivity].
           now apply list_lookup_insert_ne.
        -- intros Hin. apply elem_of_cons in Hin. tauto.
Qed.

Lemma phase2_fold_logged (schedule : list nat) (st : phase2_state) :
  logged (fold_left write schedule st)
  = logged st ++ concat (lines <$> schedule).
Proof.
  revert st. induction schedule as [|j rest IH]; intros st; cbn.
  - now rewrite app_nil_r.
  - now rewrite IH, phase2_write_logged, <- app_assoc.
Qed.

(** Whatever the order of the writes, every slot ends up holding the
    transformed element of the same position. *)
Lemma phase2_slots (schedule : list nat) :
  valid_schedule schedule (length input) ->
  maybeMappedData (phase2 T_default logger_configured schedule mapper input)
  = slot <$> input.
Proof.
  intros Hvalid. apply list_eq. intros i. unfold phase2.
  rewrite phase2_fold_lookup by apply length_replicate.
  rewrite list_lookup_fmap.
  destruct (decide (i ∈ schedule)) as [Hin|Hnotin]; [reflexivity|].
  assert (Hi : (length input <= i)%nat).
  { destruct (Nat.le_gt_cases (length input) i) as [Hle|Hlt]; [assumption|].
    exfalso. apply Hnotin. unfold valid_schedule in Hvalid.
    rewrite Hvalid. apply elem_of_seq. lia. }
  cbn [maybeMappedData].
  rewrite (lookup_ge_None_2 input i Hi).
  now apply lookup_replicate_None.
Qed.

Lemma phase2_logged (schedule : list nat) :
  logged (phase2 T_default logger_configured schedule mapper input)
  = concat (lines <$> schedule).
Proof. unfold phase2. now rewrite phase2_fold_logged. Qed.

(** The scan of phase 3 over the transformed elements is the in-order
    application of the mapper that stops at the first failure. *)
Lemma phase3_map_in_order (tuples : list LoadOrderTuple) (acc : list T) :
  phase3 (slot <$> tuples) acc
  = match map_in_order mapper tuples with
    | Returned values => Returned (acc ++ values)
    | Thrown e => Thrown e
    end.
Proof.
  revert acc. induction tuples as [|[[plugin index] isActive] rest IH];
    intros acc; [cbn; now rewrite app_nil_r|].
  rewrite fmap_cons. cbn [map_in_order]. unfold slot_of at 1, transformer.
  destruct (mapper plugin index isActive) as [value|what]; cbn [fst phase3];
    [|reflexivity].
  rewrite IH. destruct (map_in_order mapper rest); [|reflexivity].
  now rewrite <- app_assoc.
Qed.

Lemma map_in_order_first_failure (pre post : list LoadOrderTuple)
    (t : LoadOrderTuple) (what : string) :
  Forall (succeeds mapper) pre ->
  apply_mapper mapper t = Raised what ->
  map_in_order mapper (pre ++ t :: post) = Thrown (runtime_error what).
Proof.
  intros Hpre Ht. induction Hpre as [|[[plugin index] isActive] pre [v Hv] _ IH].
  - destruct t as [[plugin index] isActive]. cbn in *. now rewrite Ht.
  - cbn in *. now rewrite Hv, IH.
Qed.

Lemma map_in_order_all (tuples : list LoadOrderTuple) (values : list T) :
  Forall2 (fun t v => apply_mapper mapper t = Mapped v) tuples values ->
  map_in_order mapper tuples = Returned values.
Proof.
  induction 1 as [|[[plugin index] isActive] v tuples values Hv _ IH];
    [reflexivity|].
  cbn in *. now rewrite Hv, IH.
Qed.

Lemma first_failure_exists (tuples : list LoadOrderTuple) :
  Exists (fun t => ~ succeeds mapper t) tuples ->
  exists pre t post what,
    tuples = pre ++ t :: post
    /\ Forall (succeeds mapper) pre
    /\ apply_mapper mapper t = Raised what.
Proof.
  induction tuples as [|t rest IH]; intros Hex; [now inversion Hex|].
  destruct (apply_mapper mapper t) as [value|what] eqn:Ht.
  - assert (Hrest : Exists (fun t => ~ succeeds mapper t) rest).
    { inversion Hex as [? ? Hhead|]; [|assumption].
      exfalso. apply Hhead. now exists value. }
    destruct (IH Hrest) as (pre & t' & post & what & -> & Hpre & Ht').
    exists (t :: pre), t', post, what. repeat split; [|assumption].
    constructor; [now exists value|assumption].
  - exists [], t, rest, what. repeat split; [constructor|assumption].
Qed.

Lemma all_succeed_values (tuples : list LoadOrderTuple) :
  Forall (succeeds mapper) tuples ->
  exists values,
    Forall2 (fun t v => apply_mapper mapper t = Mapped v) tuples values.
Proof.
  induction 1 as [|t rest [v Hv] _ [values IH]].
  - exists []. constructor.
  - exists (v :: values). now constructor.
Qed.

End Phase23Facts.

(** ** Specified properties of the load-order mapper *)

Lemma length_omap_le {A B} (f : A -> option B) (l : list A) :
  (length (omap f l) <= length l)%nat.
Proof.
  induction l as [|x l IH]; [reflexivity|].
  cbn. destruct (f x); cbn; lia.
Qed.

Section LoadOrderProperties.
Context `{GameState}.
Context {T : Type}.
Variable T_default : T.
Variable logger_configured : bool.

(** C3 (amended).  Phase 1 goes through the names in load-order order and
    skips every name whose plugin lookup returns nothing, so that the tuples
    are those of the found plugins in their relative order.  A found plugin
    gets an index exactly when it is active: the running count of the active
    plugins of its kind found before it, light and normal counted apart from
    zero, held in a [short] and so never outside its range.  The index is that
    count as long as at most 32768 active plugins of each kind are in the
    load order. *)
Theorem phase1_indexes_active_plugins_in_a_short (loadOrder : list string) :
  data (phase1 loadOrder) = tuples_of index_short loadOrder
  /\ (fun t : LoadOrderTuple => fst (fst t)) <$> data (phase1 loadOrder)
     = omap GetPlugin loadOrder
  /\ (length (data (phase1 loadOrder)) <= length loadOrder)%nat
  /\ (forall count : nat,
         (Short.min_value <= index_short count <= Short.max_value)%Z)
  /\ (forall count : nat,
         (Z.of_nat count <= 32767)%Z -> index_short count = index_exact count)
  /\ ((Z.of_nat (count_active true loadOrder) <= 32768)%Z ->
      (Z.of_nat (count_active false loadOrder) <= 32768)%Z ->
      data (phase1 loadOrder) = tuples_of index_exact loadOrder).
Proof.
  assert (Hplugins : (fun t : LoadOrderTuple => fst (fst t))
                       <$> data (phase1 loadOrder)
                     = omap GetPlugin loadOrder)
    by (rewrite phase1_data; apply tuples_of_plugins).
  repeat split.
  - apply phase1_data.
  - exact Hplugins.
  - rewrite <- (length_fmap (fun t : LoadOrderTuple => fst (fst t))), Hplugins.
    apply length_omap_le.
  - apply wrap_range.
  - apply wrap_range.
  - intros count Hcount. unfold index_short, index_exact. apply wrap_small.
    unfold Short.min_value, Short.max_value. lia.
  - intros Hl Hn. rewrite phase1_data. now apply tuples_of_exact.
Qed.

(** C5. The result of [MapFromLoadOrderData] does not depend on the order in
    which phase 2 processes the elements: every mapped result lands in the
    slot of its tuple, and the outcome is that of applying the mapper to the
    tuples of phase 1 one after the other. *)
Theorem result_is_independent_of_the_schedule
    (schedule : list nat) (loadOrder : list string) (mapper : Mapper) :
  let input := data (phase1 loadOrder) in
  valid_schedule schedule (length input) ->
  maybeMappedData (phase2 T_default logger_configured schedule mapper input)
  = slot_of logger_configured mapper <$> input
  /\ fst (MapFromLoadOrderData T_default logger_configured schedule loadOrder
            mapper)
     = map_in_order mapper input
  /\ (forall schedule' : list nat,
         valid_schedule schedule' (length input) ->
         fst (MapFromLoadOrderData T_default logger_configured schedule'
                loadOrder mapper)
         = fst (MapFromLoadOrderData T_default logger_configured schedule
                  loadOrder mapper)
         /\ snd (MapFromLoadOrderData T_default logger_configured schedule'
                   loadOrder mapper)
            ≡ₚ snd (MapFromLoadOrderData T_default logger_configured schedule
                      loadOrder mapper)).
Proof.
  intros input Hvalid.
  assert (Hresult : forall s, valid_schedule s (length input) ->
            fst (MapFromLoadOrderData T_default logger_configured s loadOrder
                   mapper)
            = map_in_order mapper input).
  { intros s Hs. unfold MapFromLoadOrderData. cbn [fst]. fold input.
    rewrite (phase2_slots T_default logger_configured mapper input s Hs).
    rewrite phase3_map_in_order.
    now destruct (map_in_order mapper input). }
  split; [now apply phase2_slots|]. split; [now apply Hresult|].
  intros schedule' Hvalid'. split.
  - now rewrite !Hresult.
  - unfold MapFromLoadOrderData. cbn [snd]. fold input.
    rewrite !phase2_logged.
    unfold valid_schedule in Hvalid, Hvalid'.
    now rewrite Hvalid, Hvalid'.
Qed.

(** C4. When a mapper application fails, [MapFromLoadOrderData] throws one
    failure whose message is that of the first failing tuple in phase-1
    order, and returns no partial result; when every application succeeds it
    returns the values in order. *)
Theorem first_failure_is_rethrown
    (schedule : list nat) (loadOrder : list string) (mapper : Mapper) :
  let input := data (phase1 loadOrder) in
  let outcome :=
    fst (MapFromLoadOrderData T_default logger_configured schedule loadOrder
           mapper) in
  valid_schedule schedule (length input) ->
  (forall (pre post : list LoadOrderTuple) (t : LoadOrderTuple)
          (what : string),
      input = pre ++ t :: post ->
      Forall (succeeds mapper) pre ->
      apply_mapper mapper t = Raised what ->
      outcome = Thrown (runtime_error what))
  /\ (Exists (fun t => ~ succeeds mapper t) input ->
      exists (pre post : list LoadOrderTuple) (t : LoadOrderTuple)
             (what : string),
        input = pre ++ t :: post
        /\ Forall (succeeds mapper) pre
        /\ apply_mapper mapper t = Raised what
        /\ outcome = Thrown (runtime_error what))
  /\ (forall values : list T,
         Forall2 (fun t v => apply_mapper mapper t = Mapped v) input values ->
         outcome = Returned values)
  /\ (Forall (succeeds mapper) input ->
      exists values : list T,
        outcome = Returned values /\ length values = length input).
Proof.
  intros input outcome Hvalid.
  assert (Houtcome : outcome = map_in_order mapper input).
  { unfold outcome, MapFromLoadOrderData. cbn [fst]. fold input.
    rewrite (phase2_slots T_default logger_configured mapper input schedule
               Hvalid).
    rewrite phase3_map_in_order.
    now destruct (map_in_order mapper input). }
  rewrite Houtcome. repeat split.
  - intros pre post t what -> Hpre Ht.
    now apply map_in_order_first_failure.
  - intros Hex.
    destruct (first_failure_exists mapper input Hex)
      as (pre & t & post & what & Hsplit & Hpre & Ht).
    exists pre, post, t, what. repeat split; try assumption.
    rewrite Hsplit. now apply map_in_order_first_failure.
  - apply map_in_order_all.
  - intros Hall.
    destruct (all_succeed_values mapper input Hall) as [values Hvalues].
    exists values. split; [now apply map_in_order_all|].
    symmetry. exact (Forall2_length _ _ _ Hvalues).
Qed.

End LoadOrderProperties.

(** ** The properties on sample games *)

(** Active plugins in the order light, normal, light, normal are numbered
    0, 0, 1, 1; the unknown name contributes nothing and the inactive plugin
    gets no index. *)
Lemma phase1_indexes_active_plugins_in_a_short_witness :
  data (@phase1 Fixtures.interleaved Fixtures.interleaved_load_order)
  = [(Fixtures.a_esl, Some 0%Z, true); (Fixtures.b_esp, Some 0%Z, true);
     (Fixtures.c_esl, Some 1%Z, true); (Fixtures.d_esp, Some 1%Z, true);
     (Fixtures.e_esp, None, false)].
Proof.
  destruct (@phase1_indexes_active_plugins_in_a_short Fixtures.interleaved
              Fixtures.interleaved_load_order) as (_ & _ & _ & _ & _ & Hexact).
  rewrite Hexact; [reflexivity| |]; vm_compute; discriminate.
Defined.

(** C3 as worded fails: the plugin that comes after 32768 active normal
    plugins is given the index -32768, not 32768. *)
Lemma phase1_as_worded_fails :
  ~ @phase1_as_worded Fixtures.crowded Fixtures.overflowing_load_order.
Proof.
  unfold phase1_as_worded, Fixtures.overflowing_load_order.
  set (names := Fixtures.numbered_name <$> seq 0 (Z.to_nat 32768)).
  assert (Hall : forall l, @count_active Fixtures.crowded false l = length l).
  { induction l as [|n l IH]; [reflexivity|].
    unfold count_active in *. rewrite filter_cons_True by reflexivity.
    cbn [length]. now rewrite IH. }
  assert (Hcount : @count_active Fixtures.crowded false names
                   = Z.to_nat 32768).
  { rewrite Hall. unfold names. now rewrite length_fmap, length_seq. }
  rewrite phase1_data.
  rewrite (tuples_of_snoc index_short), (tuples_of_snoc index_exact).
  rewrite !tuple_at_last.
  cbn [GetPlugin IsPluginActive IsLightPlugin Fixtures.crowded option_list].
  rewrite Hcount. unfold index_short, index_exact.
  rewrite Z2Nat.id by lia.
  intros Heq. apply app_inj_tail in Heq as [_ Heq].
  discriminate Heq.
Qed.

Lemma result_is_independent_of_the_schedule_witness :
  fst (@MapFromLoadOrderData Fixtures.interleaved _ ("", None) true
         [3; 0; 4; 2; 1]%nat Fixtures.interleaved_load_order
         Fixtures.name_and_index)
  = Returned [("a.esl", Some 0%Z); ("b.esp", Some 0%Z); ("c.esl", Some 1%Z);
              ("d.esp", Some 1%Z); ("e.esp", None)].
Proof.
  assert (Hvalid :
            @valid_schedule [3; 0; 4; 2; 1]%nat
              (length (data (@phase1 Fixtures.interleaved
                               Fixtures.interleaved_load_order)))).
  { unfold valid_schedule. apply (bool_decide_unpack _). vm_compute. exact I. }
  destruct (@result_is_independent_of_the_schedule Fixtures.interleaved _
              ("", None) true _ _ Fixtures.name_and_index Hvalid)
    as (_ & Hresult & _).
  rewrite Hresult. reflexivity.
Defined.

(** Two applications fail; the message of the first one in phase-1 order is
    thrown, whichever the schedule.  With a mapper that never fails, all the
    values are returned. *)
Lemma first_failure_is_rethrown_witness :
  fst (@MapFromLoadOrderData Fixtures.interleaved _ ("", None) true
         [4; 3; 2; 1; 0]%nat Fixtures.interleaved_load_order
         Fixtures.fails_on_normal)
  = Thrown (runtime_error "cannot map b.esp")
  /\ exists values,
       fst (@MapFromLoadOrderData Fixtures.interleaved _ ("", None) true
              [4; 3; 2; 1; 0]%nat Fixtures.interleaved_load_order
              Fixtures.name_and_index)
       = Returned values
       /\ length values = 5%nat.
Proof.
  assert (Hvalid :
            @valid_schedule [4; 3; 2; 1; 0]%nat
              (length (data (@phase1 Fixtures.interleaved
                               Fixtures.interleaved_load_order)))).
  { unfold valid_schedule. apply (bool_decide_unpack _). vm_compute. exact I. }
  split.
  - destruct (@first_failure_is_rethrown Fixtures.interleaved _ ("", None)
                true _ _ Fixtures.fails_on_normal Hvalid)
      as (Hfirst & _).
    apply (Hfirst [(Fixtures.a_esl, Some 0%Z, true)]
             [(Fixtures.c_esl, Some 1%Z, true);
              (Fixtures.d_esp, Some 1%Z, true);
              (Fixtures.e_esp, None, false)]
             (Fixtures.b_esp, Some 0%Z, true)).
    + reflexivity.
    + repeat constructor. eexists. reflexivity.
    + reflexivity.
  - destruct (@first_failure_is_rethrown Fixtures.interleaved _ ("", None)
                true _ _ Fixtures.name_and_index Hvalid)
      as (_ & _ & _ & Hall).
    apply Hall. repeat constructor; eexists; reflexivity.
Defined.

(** * Further properties of the install detection *)

Section DetectionExtras.
Context `{Environment}.

Lemma IsSteamInstall_unrecognised (g : GameId.t) (p : path) :
  GameId.recognised g = false ->
  IsSteamInstall g p = (Thrown (logic_error "Unrecognised game ID"), []).
Proof. destruct g; intros Hg; try discriminate Hg; reflexivity. Qed.


Lemma icon_check_outcome (p : path) (id : string) :
  exists_outcome (p </> ("goggame-" +:+ id +:+ ".ico"))
  = match fs (gogIconPath p id) with
    | Present => Returned true
    | Absent => Returned false
    | StatFailure => Thrown (filesystem_error (gogIconPath p id))
    end.
Proof. reflexivity. Qed.

Lemma gog_check_of_absent (ids : list string) (p : path) :
  (forall id, id ∈ ids -> fs (gogIconPath p id) = Absent) ->
  gog_check_of ids p = Returned false
  /\ gog_probes_of ids p = icon_probe p <$> ids.
Proof.
  induction ids as [|id rest IH]; intros Hnone; [now split|].
  cbn [gog_check_of gog_probes_of]. rewrite fmap_cons, icon_check_outcome.
  rewrite (Hnone id) by (apply elem_of_cons; now left).
  destruct IH as [-> ->]; [|now split].
  intros x Hx. apply Hnone, elem_of_cons. now right.
Qed.

Lemma gog_check_of_first (pre post : list string) (id : string) (p : path) :
  (forall x, x ∈ pre -> fs (gogIconPath p x) = Absent) ->
  fs (gogIconPath p id) <> Absent ->
  gog_check_of (pre ++ id :: post) p
  = match fs (gogIconPath p id) with
    | Present => Returned true
    | Absent => Returned false
    | StatFailure => Thrown (filesystem_error (gogIconPath p id))
    end
  /\ gog_probes_of (pre ++ id :: post) p = icon_probe p <$> (pre ++ [id]).
Proof.
  intros Hpre Hid. induction pre as [|x pre IH].
  - cbn [app gog_check_of gog_probes_of]. rewrite icon_check_outcome.
    now destruct (fs (gogIconPath p id)).
  - cbn [app gog_check_of gog_probes_of].
    rewrite fmap_cons, icon_check_outcome.
    rewrite (Hpre x) by (apply elem_of_cons; now left).
    destruct IH as [-> ->]; [|now split].
    intros y Hy. apply Hpre, elem_of_cons. now right.
Qed.

(** Either no icon is there, or there is a first id whose icon is not
    reported absent. *)
Lemma first_icon_not_absent (ids : list string) (p : path) :
  (forall id, id ∈ ids -> fs (gogIconPath p id) = Absent)
  \/ exists (pre post : list string) (id : string),
       ids = pre ++ id :: post
       /\ (forall x, x ∈ pre -> fs (gogIconPath p x) = Absent)
       /\ fs (gogIconPath p id) <> Absent.
Proof.
  induction ids as [|id rest IH].
  - left. intros id Hid. now apply not_elem_of_nil in Hid.
  - destruct (fs (gogIconPath p id)) eqn:Hid.
    + right. exists [], rest, id. repeat split; [|congruence].
      intros x Hx. now apply not_elem_of_nil in Hx.
    + destruct IH as [Hnone|(pre & post & id' & -> & Hpre & Hid')].
      * left. intros x Hx. apply elem_of_cons in Hx as [->|Hx]; auto.
      * right. exists (id :: pre), post, id'. repeat split; [|exact Hid'].
        intros x Hx. apply elem_of_cons in Hx as [->|Hx]; auto.
    + right. exists [], rest, id. repeat split; [|congruence].
      intros x Hx. now apply not_elem_of_nil in Hx.
Qed.

(** X1. [IsGogInstall] checks the icons of the identity's catalogue ids in
    order and stops at the first icon that is not reported absent: it
    answers true when that icon is there and throws the filesystem error
    when its check fails.  It answers false exactly when every icon is
    reported absent, and with no id at all it checks nothing. *)
Theorem IsGogInstall_stops_at_the_first_icon (g : GameId.t) (p : path) :
  (result (IsGogInstall g p) = Returned true
   <-> exists (pre post : list string) (id : string),
         GetGogGameIds g = pre ++ id :: post
         /\ (forall x, x ∈ pre -> fs (gogIconPath p x) = Absent)
         /\ fs (gogIconPath p id) = Present)
  /\ (result (IsGogInstall g p) = Returned false
      <-> forall id, id ∈ GetGogGameIds g -> fs (gogIconPath p id) = Absent)
  /\ (forall e : exn,
         result (IsGogInstall g p) = Thrown e
         <-> exists (pre post : list string) (id : string),
               GetGogGameIds g = pre ++ id :: post
               /\ (forall x, x ∈ pre -> fs (gogIconPath p x) = Absent)
               /\ fs (gogIconPath p id) = StatFailure
               /\ e = filesystem_error (gogIconPath p id))
  /\ (forall (pre post : list string) (id : string),
         GetGogGameIds g = pre ++ id :: post ->
         (forall x, x ∈ pre -> fs (gogIconPath p x) = Absent) ->
         fs (gogIconPath p id) <> Absent ->
         probes (IsGogInstall g p) = icon_probe p <$> (pre ++ [id]))
  /\ ((forall id, id ∈ GetGogGameIds g -> fs (gogIconPath p id) = Absent) ->
      probes (IsGogInstall g p) = icon_probe p <$> GetGogGameIds g)
  /\ (GetGogGameIds g = [] -> IsGogInstall g p = (Returned false, [])).
Proof.
  rewrite IsGogInstall_run. cbn [result probes fst snd].
  unfold gog_check, gog_probes.
  pose proof (first_icon_not_absent (GetGogGameIds g) p) as Hcases.
  split; [|split; [|split; [|split; [|split]]]].
  - split.
    + intros Htrue.
      destruct Hcases as [Hnone|(pre & post & id & Hids & Hpre & Hid)].
      * destruct (gog_check_of_absent _ p Hnone) as [Hfalse _]. congruence.
      * exists pre, post, id. repeat split; try assumption.
        rewrite Hids in Htrue.
        destruct (gog_check_of_first pre post id p Hpre Hid) as [Hcheck _].
        rewrite Hcheck in Htrue.
        destruct (fs (gogIconPath p id)); [reflexivity| |]; discriminate.
    + intros (pre & post & id & Hids & Hpre & Hid). rewrite Hids.
      destruct (gog_check_of_first pre post id p Hpre) as [Hcheck _];
        [congruence|].
      now rewrite Hcheck, Hid.
  - split.
    + intros Hfalse.
      destruct Hcases as [Hnone|(pre & post & id & Hids & Hpre & Hid)];
        [exact Hnone|].
      rewrite Hids in Hfalse.
      destruct (gog_check_of_first pre post id p Hpre Hid) as [Hcheck _].
      rewrite Hcheck in Hfalse.
      destruct (fs (gogIconPath p id)); [discriminate|now destruct Hid|].
      discriminate.
    + intros Hnone. now destruct (gog_check_of_absent _ p Hnone).
  - intros e. split.
    + intros Hthrown.
      destruct Hcases as [Hnone|(pre & post & id & Hids & Hpre & Hid)].
      * destruct (gog_check_of_absent _ p Hnone) as [Hfalse _]. congruence.
      * exists pre, post, id. rewrite Hids in Hthrown.
        destruct (gog_check_of_first pre post id p Hpre Hid) as [Hcheck _].
        rewrite Hcheck in Hthrown.
        destruct (fs (gogIconPath p id));
          [discriminate|discriminate|].
        injection Hthrown as <-. now repeat split.
    + intros (pre & post & id & Hids & Hpre & Hid & ->). rewrite Hids.
      destruct (gog_check_of_first pre post id p Hpre) as [Hcheck _];
        [congruence|].
      now rewrite Hcheck, Hid.
  - intros pre post id Hids Hpre Hid. rewrite Hids.
    now destruct (gog_check_of_first pre post id p Hpre Hid).
  - intros Hnone. now destruct (gog_check_of_absent _ p Hnone).
  - intros Hids. now rewrite Hids.
Qed.

(** X2. For an identity outside the recognised set [FindGameInstalls] throws
    a logic error whatever the validator says, and it does so before reading
    the registry or checking any file. *)
Theorem FindGameInstalls_rejects_an_unrecognised_identity
    (registry : RegistryInterface) (g : GameId.t) :
  GameId.recognised g = false ->
  result (FindGameInstalls registry g)
  = Thrown (logic_error "Unrecognised game ID")
  /\ (forall value, RegistryRead value ∉ probes (FindGameInstalls registry g))
  /\ (forall q, FsExists q ∉ probes (FindGameInstalls registry g)).
Proof.
  intros Hg.
  assert (Hrun : FindGameInstalls registry g
                 = (Thrown (logic_error "Unrecognised game ID"),
                    [ValidityCheck (GetGameType g) (GetMasterFilename g)
                       ".."])).
  { unfold FindGameInstalls.
    destruct (IsValidGamePathImpl (GetGameType g) (GetMasterFilename g) "..")
      eqn:Hvalid.
    - assert (Hs : FindSiblingGameInstall g
                   = (Thrown (logic_error "Unrecognised game ID"),
                      [ValidityCheck (GetGameType g) (GetMasterFilename g)
                         ".."])).
      { unfold FindSiblingGameInstall.
        rewrite (bind_run _ _ _ _ (IsValidGamePath_run _ _ _)), Hvalid.
        cbn [negb].
        now rewrite (bind_thrown _ _ _
                       (f_equal fst (IsSteamInstall_unrecognised g ".." Hg))),
          IsSteamInstall_unrecognised. }
      now rewrite (bind_thrown _ _ _ (f_equal fst Hs)), Hs.
    - rewrite (bind_run _ _ _ _ (FindSiblingGameInstall_invalid g Hvalid)).
      rewrite (bind_thrown _ _ _
                 (f_equal fst
                    (FindGameInstallInRegistry_unrecognised registry g Hg))).
      now rewrite FindGameInstallInRegistry_unrecognised. }
  rewrite Hrun. cbn [result probes fst snd].
  repeat split; intros x Hx; apply list_elem_of_singleton in Hx;
    discriminate Hx.
Qed.

(** X3. A registry value that is absent ends the registry scan at once: no
    validity check and no file check follow.  A path that the validator
    rejects ends it after the validity check.  Both give nothing, not an
    error. *)
Theorem registry_scan_without_a_usable_path
    (registry : RegistryInterface) (g : GameId.t) (value : RegistryValue) :
  GameId.recognised g = true ->
  GetRegistryValue g = (Returned value, []) ->
  (ReadPathFromRegistryImpl registry value = None ->
   FindGameInstallInRegistry registry g
   = (Returned None, [RegistryRead value]))
  /\ (forall p : path,
         ReadPathFromRegistryImpl registry value = Some p ->
         IsValidGamePathImpl (GetGameType g) (GetMasterFilename g) p = false ->
         FindGameInstallInRegistry registry g
         = (Returned None,
            [RegistryRead value;
             ValidityCheck (GetGameType g) (GetMasterFilename g) p])).
Proof.
  intros Hg Hvalue.
  rewrite (FindGameInstallInRegistry_run registry g value Hvalue).
  split.
  - now intros ->.
  - intros p -> Hvalid. now rewrite Hvalid.
Qed.

(** X4. [DetectGameInstall] validates before it resolves the identity: with
    a family outside the recognised set a rejected path still gives nothing,
    and only an accepted one reaches the logic error, which is thrown before
    any file is checked. *)
Theorem DetectGameInstall_validates_before_resolving
    (settings : GameSettings.t) :
  let t := GameSettings.Type_ settings in
  let master := GameSettings.Master settings in
  let p := GameSettings.GamePath settings in
  GameType.recognised t = false ->
  (IsValidGamePathImpl t master p = false ->
   DetectGameInstall settings = (Returned None, [ValidityCheck t master p]))
  /\ (IsValidGamePathImpl t master p = true ->
      DetectGameInstall settings
      = (Thrown (logic_error "Unrecognised game ID"),
         [ValidityCheck t master p])).
Proof.
  intros t master p Ht. subst t master p. split; intros Hvalid.
  - exact (DetectGameInstall_invalid settings Hvalid).
  - unfold DetectGameInstall.
    rewrite (bind_run _ _ _ _ (IsValidGamePath_run _ _ _)), Hvalid.
    cbn [negb].
    destruct (GameSettings.Type_ settings); try discriminate Ht.
    reflexivity.
Qed.

(** X5. The identities released on Steam only ([tes5], [tes5vr], [fo4vr])
    are classified as Steam installs without a single file check, by the
    sibling scan, by the registry scan and by [DetectGameInstall], whose only
    file check is then the one of identity resolution: the markers of other
    stores in the directory change nothing. *)
Theorem steam_only_identities_need_no_marker (g : GameId.t) :
  g = GameId.tes5 \/ g = GameId.tes5vr \/ g = GameId.fo4vr ->
  (IsValidGamePathImpl (GetGameType g) (GetMasterFilename g) ".." = true ->
   FindSiblingGameInstall g
   = (Returned (Some (mkGameInstall g InstallSource.steam ".." None)),
      [ValidityCheck (GetGameType g) (GetMasterFilename g) ".."]))
  /\ (forall (registry : RegistryInterface) (value : RegistryValue)
             (p : path),
         GetRegistryValue g = (Returned value, []) ->
         ReadPathFromRegistryImpl registry value = Some p ->
         IsValidGamePathImpl (GetGameType g) (GetMasterFilename g) p = true ->
         FindGameInstallInRegistry registry g
         = (Returned (Some (mkGameInstall g InstallSource.steam p None)),
            [RegistryRead value;
             ValidityCheck (GetGameType g) (GetMasterFilename g) p]))
  /\ (forall (settings : GameSettings.t) (evs : list event),
         DetectGameId (GameSettings.Type_ settings)
           (GameSettings.GamePath settings) = (Returned g, evs) ->
         IsValidGamePathImpl (GameSettings.Type_ settings)
           (GameSettings.Master settings) (GameSettings.GamePath settings)
         = true ->
         DetectGameInstall settings
         = (Returned (Some (mkGameInstall g InstallSource.steam
                              (GameSettings.GamePath settings)
                              (Some (GameSettings.GameLocalPath settings)))),
            ValidityCheck (GameSettings.Type_ settings)
              (GameSettings.Master settings)
              (GameSettings.GamePath settings) :: evs)).
Proof.
  intros Hg.
  assert (Hrec : GameId.recognised g = true)
    by (destruct Hg as [->|[->| ->]]; reflexivity).
  assert (Hsteam : forall p, IsSteamInstall g p = (Returned true, []))
    by (intros p; destruct Hg as [->|[->| ->]]; reflexivity).
  split; [|split].
  - intros Hvalid. unfold FindSiblingGameInstall.
    rewrite (bind_run _ _ _ _ (IsValidGamePath_run _ _ _)), Hvalid.
    cbn [negb]. now rewrite (bind_run _ _ _ _ (Hsteam "..")).
  - intros registry value p Hvalue Hread Hvalid.
    unfold FindGameInstallInRegistry.
    rewrite (bind_run _ _ _ _ Hvalue).
    rewrite (bind_run _ _ _ _ (ReadPathFromRegistry_run registry value)).
    rewrite Hread.
    rewrite (bind_run _ _ _ _ (IsValidGamePath_run _ _ _)), Hvalid.
    now rewrite (bind_run _ _ _ _ (Hsteam p)).
  - intros settings evs Hid Hvalid. unfold DetectGameInstall.
    rewrite (bind_run _ _ _ _ (IsValidGamePath_run _ _ _)), Hvalid.
    cbn [negb]. rewrite (bind_run _ _ _ _ Hid).
    rewrite (bind_run _ _ _ _ (Hsteam _)). now eff_norm.
Qed.

End DetectionExtras.

Section DetectionExtras2.
Context `{Environment}.

Lemma two_way_demotes_four_way (g : GameId.t) (p : path)
    (s : InstallSource.t) :
  four_way_source g p = Returned s ->
  two_way_source g p = Returned (without_store_sources s).
Proof.
  unfold two_way_source, four_way_source, first_match.
  destruct (steam_check g p) as [[|]|e1], (gog_check g p) as [[|]|e2],
    (epic_check p) as [[|]|e3], (microsoft_check p) as [[|]|e4];
    try discriminate; now intros [= <-].
Qed.

(** X6. When the registry points at the sibling directory and the sibling
    scan returns an install, [FindGameInstalls] returns two entries with the
    same identity and path, and the source of the second is that of the
    first except that [epic] and [microsoft] become [unknown]: the
    duplicates need not be equal.  When the sibling scan throws,
    [FindGameInstalls] throws the same error. *)
Theorem registry_entry_demotes_the_store_sources
    (registry : RegistryInterface) (g : GameId.t) (value : RegistryValue) :
  GetRegistryValue g = (Returned value, []) ->
  ReadPathFromRegistryImpl registry value = Some ".." ->
  IsValidGamePathImpl (GetGameType g) (GetMasterFilename g) ".." = true ->
  (forall a : GameInstall,
      result (FindSiblingGameInstall g) = Returned (Some a) ->
      exists b : GameInstall,
        result (FindGameInstalls registry g) = Returned [a; b]
        /\ gameId a = g /\ gameId b = g
        /\ installPath a = ".." /\ installPath b = ".."
        /\ localPath a = None /\ localPath b = None
        /\ source b = without_store_sources (source a))
  /\ (forall e : exn,
         result (FindSiblingGameInstall g) = Thrown e ->
         result (FindGameInstalls registry g) = Thrown e)
  /\ result (FindSiblingGameInstall g) <> Returned None.
Proof.
  intros Hvalue Hread Hvalid.
  pose proof (FindGameInstallInRegistry_run registry g value Hvalue) as Hr.
  rewrite Hread, Hvalid in Hr.
  rewrite FindGameInstalls_eq, Hr.
  rewrite (FindSiblingGameInstall_valid g Hvalid). cbn [result probes fst snd].
  destruct (four_way_source g "..") as [s|e] eqn:Hs; cbn [install_of].
  - rewrite (two_way_demotes_four_way g ".." s Hs). cbn [install_of].
    split; [|split]; [|discriminate|discriminate].
    intros a [= <-]. eexists. cbn [option_list app].
    split; [reflexivity|]. cbn [gameId installPath localPath source].
    repeat split.
  - split; [|split]; [discriminate| |discriminate].
    now intros e' [= <-].
Qed.

(** X7. No two recognised identities share a registry location, so the
    registry scans of two identities never read the same value; the two
    Enderal identities are looked up under the current user, all the others
    under the local machine. *)
Theorem registry_locations_are_distinct (g1 g2 : GameId.t)
    (value : RegistryValue) :
  (result (GetRegistryValue g1) = Returned value ->
   result (GetRegistryValue g2) = Returned value -> g1 = g2)
  /\ (result (GetRegistryValue g1) = Returned value ->
      (rootKey value = "HKEY_CURRENT_USER"
       <-> g1 = GameId.enderal \/ g1 = GameId.enderalse)
      /\ (rootKey value = "HKEY_LOCAL_MACHINE"
          <-> g1 <> GameId.enderal /\ g1 <> GameId.enderalse)).
Proof.
  split.
  - destruct g1; cbn; intros [= <-]; destruct g2; cbn; intros Heq;
      try reflexivity; discriminate Heq.
  - destruct g1; cbn; intros [= <-]; cbn; repeat split;
      try discriminate; try tauto; intros Hc; try discriminate Hc;
      destruct Hc as [Hc|Hc]; discriminate Hc.
Qed.


(** X8. Pointed at the sibling directory with the family and master file of
    an identity that identity resolution confirms, [DetectGameInstall] does
    what the sibling scan does: it returns the install of the sibling scan
    with the configured local-data path added, or throws the error that the
    sibling scan throws. *)
Theorem DetectGameInstall_agrees_with_the_sibling_scan
    (g : GameId.t) (localDataPath : path) :
  IsValidGamePathImpl (GetGameType g) (GetMasterFilename g) ".." = true ->
  result (DetectGameId (GetGameType g) "..") = Returned g ->
  result (DetectGameInstall
            (GameSettings.mk (GetGameType g) (GetMasterFilename g) ".."
               localDataPath))
  = match result (FindSiblingGameInstall g) with
    | Returned (Some install) =>
        Returned (Some (mkGameInstall (gameId install) (source install)
                          (installPath install) (Some localDataPath)))
    | Returned None => Returned None
    | Thrown e => Thrown e
    end
  /\ result (FindSiblingGameInstall g) <> Returned None
  /\ forall install : GameInstall,
       result (FindSiblingGameInstall g) = Returned (Some install) ->
       localPath install = None.
Proof.
  intros Hvalid Hid.
  rewrite DetectGameId_run in Hid. cbn [result fst] in Hid.
  rewrite (FindSiblingGameInstall_valid g Hvalid).
  rewrite DetectGameInstall_valid by assumption.
  cbn [result fst GameSettings.Type_ GameSettings.GamePath
         GameSettings.GameLocalPath].
  rewrite Hid.
  destruct (four_way_source g "..") as [s|e]; cbn [install_of];
    repeat split; try discriminate.
  now intros install [= <-].
Qed.

End DetectionExtras2.

(** ** The further properties on sample environments *)

(** The first icon of Oblivion is absent and the second is there; for
    Morrowind neither is; with the second icon unreadable the check throws
    after having looked at both. *)
Lemma IsGogInstall_stops_at_the_first_icon_witness :
  let E := Fixtures.env Fixtures.steam_and_gog in
  result (@IsGogInstall E GameId.tes4 "..") = Returned true
  /\ probes (@IsGogInstall E GameId.tes4 "..")
     = [FsExists "../goggame-1242989820.ico";
        FsExists "../goggame-1458058109.ico"]
  /\ probes (@IsGogInstall E GameId.tes3 "..")
     = [FsExists "../goggame-1440163901.ico";
        FsExists "../goggame-1435828767.ico"]
  /\ @IsGogInstall E GameId.fo4 ".." = (Returned false, [])
  /\ result (@IsGogInstall Fixtures.unreadable_icon GameId.tes4 "..")
     = Thrown (filesystem_error "../goggame-1458058109.ico").
Proof.
  intros E. split; [|split; [|split; [|split]]].
  - destruct (@IsGogInstall_stops_at_the_first_icon E GameId.tes4 "..")
      as (Htrue & _).
    apply Htrue. exists ["1242989820"], [], "1458058109".
    repeat split.
    intros x Hx. apply list_elem_of_singleton in Hx. now subst x.
  - destruct (@IsGogInstall_stops_at_the_first_icon E GameId.tes4 "..")
      as (_ & _ & _ & Hfirst & _).
    rewrite (Hfirst ["1242989820"] [] "1458058109"); try reflexivity.
    + intros x Hx. apply list_elem_of_singleton in Hx. now subst x.
    + discriminate.
  - destruct (@IsGogInstall_stops_at_the_first_icon E GameId.tes3 "..")
      as (_ & _ & _ & _ & Hnone & _).
    rewrite Hnone; [reflexivity|].
    intros id Hid. apply elem_of_cons in Hid as [->|Hid]; [reflexivity|].
    apply list_elem_of_singleton in Hid. now subst id.
  - destruct (@IsGogInstall_stops_at_the_first_icon E GameId.fo4 "..")
      as (_ & _ & _ & _ & _ & Hempty).
    now apply Hempty.
  - destruct (@IsGogInstall_stops_at_the_first_icon Fixtures.unreadable_icon
                GameId.tes4 "..") as (_ & _ & Hthrown & _).
    apply Hthrown. exists ["1242989820"], [], "1458058109".
    repeat split.
    intros x Hx. apply list_elem_of_singleton in Hx. now subst x.
Defined.

Lemma FindGameInstalls_rejects_an_unrecognised_identity_witness :
  let E := Fixtures.env Fixtures.steam_and_gog in
  let registry : @RegistryInterface E := fun _ => Some ".." in
  result (@FindGameInstalls E registry (GameId.unrecognised 42))
  = Thrown (logic_error "Unrecognised game ID").
Proof.
  intros E registry.
  now destruct (@FindGameInstalls_rejects_an_unrecognised_identity E registry
                  (GameId.unrecognised 42) eq_refl) as [Hthrown _].
Defined.

Lemma registry_scan_without_a_usable_path_witness :
  let E := Fixtures.env Fixtures.steam_and_gog in
  @FindGameInstallInRegistry E (fun _ => None) GameId.tes4
  = (Returned None, [RegistryRead MoreFixtures.oblivion_location])
  /\ @FindGameInstallInRegistry E (fun _ => Some "C:/Nowhere") GameId.tes4
     = (Returned None,
        [RegistryRead MoreFixtures.oblivion_location;
         ValidityCheck GameType.tes4 "Oblivion.esm" "C:/Nowhere"]).
Proof.
  intros E. split.
  - destruct (@registry_scan_without_a_usable_path E (fun _ => None)
                GameId.tes4 MoreFixtures.oblivion_location eq_refl eq_refl)
      as [Habsent _].
    now apply Habsent.
  - destruct (@registry_scan_without_a_usable_path E
                (fun _ => Some "C:/Nowhere") GameId.tes4
                MoreFixtures.oblivion_location eq_refl eq_refl)
      as [_ Hrejected].
    now apply (Hrejected "C:/Nowhere").
Defined.

Lemma DetectGameInstall_validates_before_resolving_witness :
  let E := Fixtures.env Fixtures.steam_and_gog in
  result (@DetectGameInstall E MoreFixtures.unknown_family_missing_settings)
  = Returned None
  /\ @DetectGameInstall E MoreFixtures.unknown_family_settings
     = (Thrown (logic_error "Unrecognised game ID"),
        [ValidityCheck (GameType.unrecognised 42) "Oblivion.esm" ".."]).
Proof.
  intros E. split.
  - destruct (@DetectGameInstall_validates_before_resolving E
                MoreFixtures.unknown_family_missing_settings eq_refl)
      as [Hrejected _].
    now rewrite (Hrejected eq_refl).
  - destruct (@DetectGameInstall_validates_before_resolving E
                MoreFixtures.unknown_family_settings eq_refl)
      as [_ Haccepted].
    now apply Haccepted.
Defined.

Lemma steam_only_identities_need_no_marker_witness :
  let E := Fixtures.env MoreFixtures.skyrim_vr_with_store_markers in
  @epic_check E ".." = Returned true
  /\ @FindSiblingGameInstall E GameId.tes5vr
     = (Returned (Some (mkGameInstall GameId.tes5vr InstallSource.steam ".."
                          None)),
        [ValidityCheck GameType.tes5vr "Skyrim.esm" ".."])
  /\ @DetectGameInstall E MoreFixtures.skyrim_vr_settings
     = (Returned (Some (mkGameInstall GameId.tes5vr InstallSource.steam ".."
                          (Some "C:/Users/me/SkyrimVR"))),
        [ValidityCheck GameType.tes5vr "Skyrim.esm" ".."]).
Proof.
  intros E.
  destruct (@steam_only_identities_need_no_marker E GameId.tes5vr
              (or_intror (or_introl eq_refl)))
    as (Hsibling & _ & Hdetect).
  split; [reflexivity|]. split.
  - now apply Hsibling.
  - now apply (Hdetect MoreFixtures.skyrim_vr_settings []).
Defined.

Lemma registry_entry_demotes_the_store_sources_witness :
  let E := Fixtures.env Fixtures.epic_and_microsoft in
  let registry : @RegistryInterface E := fun _ => Some ".." in
  result (@FindGameInstalls E registry GameId.tes4)
  = Returned [mkGameInstall GameId.tes4 InstallSource.epic ".." None;
              mkGameInstall GameId.tes4 InstallSource.unknown ".." None].
Proof.
  intros E registry.
  destruct (@registry_entry_demotes_the_store_sources E registry GameId.tes4
              MoreFixtures.oblivion_location eq_refl eq_refl eq_refl)
    as (Hboth & _).
  destruct (Hboth (mkGameInstall GameId.tes4 InstallSource.epic ".." None)
              eq_refl) as (b & Hresult & _).
  rewrite Hresult. vm_compute in Hresult.
  now injection Hresult as <-.
Defined.

Lemma DetectGameInstall_agrees_with_the_sibling_scan_witness :
  let E := Fixtures.env Fixtures.steam_and_gog in
  result (@DetectGameInstall E
            (GameSettings.mk GameType.tes4 "Oblivion.esm" ".."
               "C:/Users/me/Oblivion"))
  = Returned (Some (mkGameInstall GameId.tes4 InstallSource.steam ".."
                      (Some "C:/Users/me/Oblivion"))).
Proof.
  intros E.
  destruct (@DetectGameInstall_agrees_with_the_sibling_scan E GameId.tes4
              "C:/Users/me/Oblivion" eq_refl eq_refl)
    as (Hdetect & _).
  exact Hdetect.
Defined.
(** * Further properties of the load-order mapper *)

Section Phase1Extras.
Context `{GameState}.

(** What one more name adds to the tuples. *)
Lemma phase1_data_snoc (names : list string) (n : string) :
  data (phase1 (names ++ [n]))
  = data (phase1 names)
    ++ match GetPlugin n with
       | None => []
       | Some plugin =>
           [(plugin,
             if IsPluginActive n then
               Some (index_short (count_active (IsLightPlugin plugin) names))
             else None,
             IsPluginActive n)]
       end.
Proof.
  rewrite !phase1_data, tuples_of_snoc, tuple_at_last.
  now destruct (GetPlugin n).
Qed.

Lemma phase1_fold_skips_unknown (names : list string) (st : phase1_state) :
  fold_left phase1_step (filter (fun n => is_Some (GetPlugin n)) names) st
  = fold_left phase1_step names st.
Proof.
  revert st. induction names as [|n names IH]; intros st; [reflexivity|].
  destruct (GetPlugin n) as [plugin|] eqn:Hn.
  - rewrite filter_cons_True by (rewrite Hn; eauto). cbn [fold_left].
    apply IH.
  - rewrite filter_cons_False by (rewrite Hn; apply is_Some_None).
    cbn [fold_left]. rewrite IH. f_equal.
    unfold phase1_step. now rewrite Hn.
Qed.

Lemma count_active_of_kind (light : bool) (names : list string) :
  count_active light (filter (fun n => is_of_kind light n = true) names)
  = count_active light names.
Proof.
  unfold count_active. f_equal. apply list_filter_filter_l.
  intros n. unfold is_active_of_kind, is_of_kind.
  destruct (GetPlugin n); [|discriminate].
  intros Hn. now apply andb_prop in Hn as [Hn _].
Qed.

Lemma is_of_kind_found (light : bool) (n : string)
    (plugin : PluginInterface) :
  GetPlugin n = Some plugin ->
  is_of_kind light n = true <-> IsLightPlugin plugin = light.
Proof.
  intros Hn. unfold is_of_kind. rewrite Hn.
  apply bool_decide_eq_true.
Qed.

(** X9. Names that no plugin bears are without effect: removing them from
    the load order changes neither the tuples and counters of phase 1 nor,
    for any schedule and mapper, what [MapFromLoadOrderData] returns, throws
    and logs. *)
Theorem unknown_names_are_without_effect (loadOrder : list string) :
  phase1 (filter (fun n => is_Some (GetPlugin n)) loadOrder)
  = phase1 loadOrder
  /\ forall (T : Type) (T_default : T) (logger_configured : bool)
            (schedule : list nat) (mapper : Mapper),
       MapFromLoadOrderData T_default logger_configured schedule
         (filter (fun n => is_Some (GetPlugin n)) loadOrder) mapper
       = MapFromLoadOrderData T_default logger_configured schedule loadOrder
           mapper.
Proof.
  assert (Hphase1 : phase1 (filter (fun n => is_Some (GetPlugin n)) loadOrder)
                    = phase1 loadOrder)
    by apply phase1_fold_skips_unknown.
  split; [exact Hphase1|].
  intros T T_default logger_configured schedule mapper.
  unfold MapFromLoadOrderData. now rewrite Hphase1.
Qed.

(** X10. Light and normal plugins are numbered independently: the tuples of
    the plugins of one kind are what phase 1 yields when the names of the
    other kind are taken out of the load order. *)
Theorem kinds_are_numbered_independently
    (light : bool) (loadOrder : list string) :
  filter (fun t : LoadOrderTuple => IsLightPlugin (fst (fst t)) = light)
    (data (phase1 loadOrder))
  = data (phase1 (filter (fun n => is_of_kind light n = true) loadOrder)).
Proof.
  induction loadOrder as [|n names IH] using rev_ind; [reflexivity|].
  rewrite phase1_data_snoc, !filter_app, IH.
  destruct (GetPlugin n) as [plugin|] eqn:Hn.
  - destruct (decide (IsLightPlugin plugin = light)) as [Hkind|Hkind].
    + rewrite (filter_cons_True _ n) by now apply (is_of_kind_found _ _ _ Hn).
      rewrite filter_nil, phase1_data_snoc, Hn.
      rewrite filter_cons_True by exact Hkind.
      now rewrite filter_nil, Hkind, count_active_of_kind.
    + rewrite (filter_cons_False _ n)
        by (intros Hc; now apply (is_of_kind_found _ _ _ Hn) in Hc).
      rewrite filter_nil, app_nil_r.
      rewrite filter_cons_False by exact Hkind.
      now rewrite filter_nil, app_nil_r.
  - rewrite (filter_cons_False _ n)
      by (unfold is_of_kind; rewrite Hn; discriminate).
    now rewrite !filter_nil, !app_nil_r.
Qed.

(** X11. The tuple of a plugin depends on the names before it only: the
    tuples of a load order are kept, in place, when names are appended, and
    the appended names add the tuples of their found plugins. *)
Theorem appended_names_leave_earlier_tuples
    (loadOrder more : list string) :
  exists added : list LoadOrderTuple,
    data (phase1 (loadOrder ++ more)) = data (phase1 loadOrder) ++ added
    /\ (fun t : LoadOrderTuple => fst (fst t)) <$> added
       = omap GetPlugin more.
Proof.
  induction more as [|n more (added & Hdata & Hplugins)] using rev_ind.
  - exists []. now rewrite !app_nil_r.
  - rewrite app_assoc, phase1_data_snoc, Hdata, <- app_assoc.
    eexists. split; [reflexivity|].
    rewrite fmap_app, omap_app, Hplugins. f_equal.
    cbn. now destruct (GetPlugin n).
Qed.

(** X12. The indices handed to the active plugins of one kind are, in
    load-order order, the counts 0, 1, 2, ... held in a [short], one for each
    such plugin; they are the numbers themselves as long as there are at most
    32768 of them. *)
Theorem indices_of_a_kind_are_consecutive
    (light : bool) (loadOrder : list string) :
  indices_of_kind light (data (phase1 loadOrder))
  = index_short <$> seq 0 (count_active light loadOrder)
  /\ ((Z.of_nat (count_active light loadOrder) <= 32768)%Z ->
      indices_of_kind light (data (phase1 loadOrder))
      = Z.of_nat <$> seq 0 (count_active light loadOrder)).
Proof.
  assert (Hshort : indices_of_kind light (data (phase1 loadOrder))
                   = index_short <$> seq 0 (count_active light loadOrder)).
  { induction loadOrder as [|n names IH] using rev_ind; [reflexivity|].
    unfold indices_of_kind in *.
    rewrite phase1_data_snoc, omap_app, IH, count_active_snoc.
    unfold is_active_of_kind.
    destruct (GetPlugin n) as [plugin|];
      [|now rewrite Nat.add_0_r, app_nil_r].
    cbn [omap list_omap fst snd].
    destruct (decide (IsLightPlugin plugin = light)) as [Hkind|Hkind].
    - rewrite !bool_decide_eq_true_2 by exact Hkind. rewrite Hkind.
      destruct (IsPluginActive n); cbn [andb].
      + now rewrite Nat.add_1_r, seq_S, fmap_app.
      + now rewrite Nat.add_0_r, app_nil_r.
    - rewrite !bool_decide_eq_false_2 by exact Hkind. cbn [andb].
      now rewrite Nat.add_0_r, app_nil_r. }
  split; [exact Hshort|].
  intros Hcount. rewrite Hshort. apply list_fmap_ext.
  intros i count Hi. apply lookup_seq in Hi as [-> Hlt].
  unfold index_short. apply wrap_small.
  unfold Short.min_value, Short.max_value. lia.
Qed.

End Phase1Extras.

Section MapperExtras.
Context `{GameState}.
Context {T : Type}.
Variable T_default : T.
Variable logger_configured : bool.

Lemma map_in_order_returned (mapper : @Mapper _ T) (tuples : list LoadOrderTuple)
    (values : list T) :
  map_in_order mapper tuples = Returned values ->
  Forall2 (fun t v => apply_mapper mapper t = Mapped v) tuples values.
Proof.
  revert values.
  induction tuples as [|[[plugin index] isActive] rest IH]; intros values.
  - intros [= <-]. constructor.
  - cbn [map_in_order].
    destruct (mapper plugin index isActive) as [value|what] eqn:Hvalue;
      [|discriminate].
    destruct (map_in_order mapper rest) as [vs|e]; [|discriminate].
    intros [= <-]. constructor; [exact Hvalue|now apply IH].
Qed.

Lemma concat_fmap_nil {A B} (f : A -> list B) (l : list A) :
  (forall x, f x = []) -> concat (f <$> l) = [].
Proof.
  intros Hf. induction l as [|x l IH]; [reflexivity|].
  rewrite fmap_cons. cbn [concat]. now rewrite Hf, IH.
Qed.

Lemma lines_at_in_order (mapper : @Mapper _ T) (input : list LoadOrderTuple) :
  lines_at logger_configured mapper input <$> seq 0 (length input)
  = lines_of logger_configured mapper <$> input.
Proof.
  apply list_eq. intros i. rewrite !list_lookup_fmap.
  destruct (input !! i) as [t|] eqn:Hi.
  - rewrite (lookup_seq_lt 0 _ i) by now apply lookup_lt_Some in Hi.
    cbn. unfold lines_at. now rewrite Hi.
  - rewrite lookup_seq_ge; [reflexivity|]. now apply lookup_ge_None.
Qed.

Lemma lines_of_failures (mapper : @Mapper _ T) (input : list LoadOrderTuple) :
  logger_configured = true ->
  concat (lines_of logger_configured mapper <$> input)
  = omap (failure_line mapper) input.
Proof.
  intros Hlogger. induction input as [|[[plugin index] isActive] rest IH];
    [reflexivity|].
  rewrite fmap_cons. cbn [concat]. rewrite IH.
  unfold lines_of, transformer, failure_line. cbn. rewrite Hlogger.
  now destruct (mapper plugin index isActive).
Qed.

Lemma phase1_without_known_plugins (loadOrder : list string) :
  Forall (fun n => GetPlugin n = None) loadOrder ->
  phase1 loadOrder = mkPhase1 [] 0 0.
Proof.
  intros Hnone. unfold phase1. rewrite <- phase1_fold_skips_unknown.
  replace (filter (fun n => is_Some (GetPlugin n)) loadOrder) with
    (@nil string); [reflexivity|].
  symmetry. induction Hnone as [|n names Hn _ IH]; [reflexivity|].
  rewrite filter_cons_False by (rewrite Hn; apply is_Some_None).
  exact IH.
Qed.

Lemma phase2_of_nothing (schedule : list nat) (mapper : @Mapper _ T) :
  phase2 T_default logger_configured schedule mapper [] = mkPhase2 [] [].
Proof.
  unfold phase2. cbn [length replicate].
  induction schedule as [|i rest IH]; [reflexivity|].
  cbn [fold_left]. unfold phase2_write at 2. now rewrite lookup_nil.
Qed.

(** X13. When [MapFromLoadOrderData] returns, it returns one value for each
    name of the load order whose plugin is found, in load-order order: the
    value at a position is the mapper's result for the tuple at that
    position.  The result is never longer than the load order. *)
Theorem returned_values_are_those_of_the_found_plugins
    (schedule : list nat) (loadOrder : list string) (mapper : @Mapper _ T)
    (values : list T) :
  valid_schedule schedule (length (data (phase1 loadOrder))) ->
  fst (MapFromLoadOrderData T_default logger_configured schedule loadOrder
         mapper)
  = Returned values ->
  Forall2 (fun t v => apply_mapper mapper t = Mapped v)
    (data (phase1 loadOrder)) values
  /\ length values = length (omap GetPlugin loadOrder)
  /\ (length values <= length loadOrder)%nat.
Proof.
  intros Hvalid Hreturned.
  unfold MapFromLoadOrderData in Hreturned. cbn [fst] in Hreturned.
  rewrite (phase2_slots T_default logger_configured mapper _ schedule Hvalid)
    in Hreturned.
  rewrite phase3_map_in_order in Hreturned.
  destruct (map_in_order mapper (data (phase1 loadOrder))) as [vs|e] eqn:Hvs;
    [|discriminate].
  injection Hreturned as <-.
  apply map_in_order_returned in Hvs.
  assert (Hlength : length vs = length (omap GetPlugin loadOrder)).
  { rewrite <- (Forall2_length _ _ _ Hvs).
    rewrite <- (length_fmap (fun t : LoadOrderTuple => fst (fst t))).
    now rewrite phase1_data, tuples_of_plugins. }
  repeat split; [exact Hvs|exact Hlength|].
  rewrite Hlength. apply length_omap_le.
Qed.

(** X14. Every failing application is logged, not only the one whose
    message is thrown: with a logger, the lines logged are those of all the
    failing tuples, in some order, and in phase-1 order when the elements are
    processed in sequence.  Without a logger nothing is logged. *)
Theorem every_failure_is_logged
    (schedule : list nat) (loadOrder : list string) (mapper : @Mapper _ T) :
  let input := data (phase1 loadOrder) in
  let logged :=
    snd (MapFromLoadOrderData T_default logger_configured schedule loadOrder
           mapper) in
  (logger_configured = false -> logged = [])
  /\ (logger_configured = true ->
      valid_schedule schedule (length input) ->
      logged ≡ₚ omap (failure_line mapper) input)
  /\ (logger_configured = true ->
      schedule = seq 0 (length input) ->
      logged = omap (failure_line mapper) input).
Proof.
  intros input logged.
  assert (Hlogged : logged
                    = concat (lines_at logger_configured mapper input
                                <$> schedule))
    by apply phase2_logged.
  rewrite Hlogged. split; [|split].
  - intros Hlogger. apply concat_fmap_nil. intros i.
    unfold lines_at, lines_of, transformer.
    destruct (input !! i) as [[[plugin index] isActive]|]; [|reflexivity].
    rewrite Hlogger. now destruct (mapper plugin index isActive).
  - intros Hlogger Hvalid. unfold valid_schedule in Hvalid.
    rewrite Hvalid, lines_at_in_order. now rewrite lines_of_failures.
  - intros Hlogger ->.
    rewrite lines_at_in_order. now apply lines_of_failures.
Qed.

(** X15. A load order none of whose names is that of a known plugin, the
    empty one included, maps to the empty sequence: the mapper is not applied
    and nothing is logged, whatever the schedule. *)
Theorem load_order_without_known_plugins
    (schedule : list nat) (loadOrder : list string) (mapper : @Mapper _ T) :
  Forall (fun n => GetPlugin n = None) loadOrder ->
  MapFromLoadOrderData T_default logger_configured schedule loadOrder mapper
  = (Returned [], []).
Proof.
  intros Hnone. unfold MapFromLoadOrderData.
  rewrite (phase1_without_known_plugins loadOrder Hnone). cbn [data].
  now rewrite phase2_of_nothing.
Qed.

End MapperExtras.

(** ** The further properties on sample games *)

Lemma indices_of_a_kind_are_consecutive_witness :
  @indices_of_kind Fixtures.interleaved true
    (data (@phase1 Fixtures.interleaved Fixtures.interleaved_load_order))
  = [0%Z; 1%Z]
  /\ @indices_of_kind Fixtures.interleaved false
       (data (@phase1 Fixtures.interleaved Fixtures.interleaved_load_order))
     = [0%Z; 1%Z].
Proof.
  split.
  - destruct (@indices_of_a_kind_are_consecutive Fixtures.interleaved true
                Fixtures.interleaved_load_order) as [_ Hexact].
    rewrite Hexact; [reflexivity|]. vm_compute. discriminate.
  - destruct (@indices_of_a_kind_are_consecutive Fixtures.interleaved false
                Fixtures.interleaved_load_order) as [_ Hexact].
    rewrite Hexact; [reflexivity|]. vm_compute. discriminate.
Defined.

Lemma returned_values_are_those_of_the_found_plugins_witness :
  exists values : list (string * option Z),
    fst (@MapFromLoadOrderData Fixtures.interleaved _ ("", None) true
           [1; 0; 2; 4; 3]%nat Fixtures.interleaved_load_order
           Fixtures.name_and_index)
    = Returned values
    /\ length values = 5%nat
    /\ length Fixtures.interleaved_load_order = 6%nat.
Proof.
  eexists. split; [reflexivity|]. split; [|reflexivity].
  assert (Hvalid :
            @valid_schedule [1; 0; 2; 4; 3]%nat
              (length (data (@phase1 Fixtures.interleaved
                               Fixtures.interleaved_load_order)))).
  { unfold valid_schedule. apply (bool_decide_unpack _). vm_compute.
    exact I. }
  destruct (@returned_values_are_those_of_the_found_plugins
              Fixtures.interleaved _ ("", None) true _ _
              Fixtures.name_and_index _ Hvalid eq_refl)
    as (_ & Hlength & _).
  rewrite Hlength. reflexivity.
Defined.

(** Four applications fail; the message of the first is thrown and all four
    are logged. *)
Lemma every_failure_is_logged_witness :
  fst (@MapFromLoadOrderData Fixtures.interleaved _ ("", None) true
         (seq 0 5) Fixtures.interleaved_load_order
         MoreFixtures.fails_after_first)
  = Thrown (runtime_error "b.esp")
  /\ snd (@MapFromLoadOrderData Fixtures.interleaved _ ("", None) true
            (seq 0 5) Fixtures.interleaved_load_order
            MoreFixtures.fails_after_first)
     = [log_line "b.esp"; log_line "c.esl"; log_line "d.esp";
        log_line "e.esp"]
  /\ snd (@MapFromLoadOrderData Fixtures.interleaved _ ("", None) false
            (seq 0 5) Fixtures.interleaved_load_order
            MoreFixtures.fails_after_first)
     = [].
Proof.
  split; [reflexivity|]. split.
  - destruct (@every_failure_is_logged Fixtures.interleaved _ ("", None) true
                (seq 0 5) Fixtures.interleaved_load_order
                MoreFixtures.fails_after_first) as (_ & _ & Hordered).
    rewrite Hordered; reflexivity.
  - destruct (@every_failure_is_logged Fixtures.interleaved _ ("", None) false
                (seq 0 5) Fixtures.interleaved_load_order
                MoreFixtures.fails_after_first) as (Hsilent & _).
    now apply Hsilent.
Defined.

Lemma load_order_without_known_plugins_witness :
  @MapFromLoadOrderData Fixtures.interleaved _ ("", None) true [0; 1]%nat
    ["x.esp"; "y.esp"] Fixtures.name_and_index
  = (Returned [], [])
  /\ @MapFromLoadOrderData Fixtures.interleaved _ ("", None) true [] []
       Fixtures.name_and_index
     = (Returned [], []).
Proof.
  split.
  - apply (@load_order_without_known_plugins Fixtures.interleaved).
    repeat constructor.
  - apply (@load_order_without_known_plugins Fixtures.interleaved).
    constructor.
Defined.

